(** * pyWinKeys: the script reader, the script executor and the execution API

    A shallow embedding of [scripts/script_reader.py],
    [scripts/script_executor.py], [scripts/execution_api.py] and of the parts
    of [winkeys/winkeys.py] they call, followed by the properties of the
    script format and of the dispatch engine.

    Conventions of the embedding.
    - A Python [str] is a [list ascii]; a character is read as the code point
      of the same number, so the model covers text in U+0000..U+00FF.
    - A Python [int] is a [Z].
    - A [dict] is a [gmap]; the iteration order of the dictionaries is not
      observed by any definition below.
    - Code that returns early, returns [None] or raises is written with the
      three-way [outcome] type.
    - Everything the input backend does (sleeping, [SendInput], writing a
      diagnostic to [sys.stderr]) is appended to the [trace] of a [world]. *)

From Stdlib Require Import ZArith Ascii String List Lia Bool.
From stdpp Require Import base gmap strings list.

Local Open Scope Z_scope.

(** ** Python strings *)

Module PyStr.

Abbreviation str := (list ascii).

(** A literal of the source. *)
Definition py (s : string) : str := list_ascii_of_string s.

Definition chr (n : nat) : ascii := ascii_of_nat n.
Definition ord (c : ascii) : Z := Z.of_nat (nat_of_ascii c).

Definition dquote : ascii := chr 34.
Definition backslash : ascii := chr 92.
Definition comma : ascii := chr 44.
Definition plus_sign : ascii := chr 43.
Definition space : ascii := chr 32.
Definition newline : ascii := chr 10.

(** [len(s)], of a string or of a list. *)
Definition len {A : Type} (s : list A) : Z := Z.of_nat (length s).

(** [c in s] for a one-character [c]. *)
Definition char_in (c : ascii) (s : str) : bool := existsb (Ascii.eqb c) s.

(** [string.whitespace], which is [' \t\n\r\x0b\x0c']. *)
Definition whitespace : str := [chr 32; chr 9; chr 10; chr 13; chr 11; chr 12].

(** [string.digits], [string.ascii_lowercase], [string.ascii_uppercase]. *)
Definition digits : str := py "0123456789".
Definition ascii_lowercase : str := py "abcdefghijklmnopqrstuvwxyz".
Definition ascii_uppercase : str := py "ABCDEFGHIJKLMNOPQRSTUVWXYZ".

(** The characters 0 to 9. *)
Definition is_decimal (c : ascii) : bool := (48 <=? ord c) && (ord c <=? 57).

(** The characters for which [str.isdigit] holds: the decimal digits and,
    below U+0100, the superscript digits U+00B2, U+00B3 and U+00B9. *)
Definition is_digit_char (c : ascii) : bool :=
  is_decimal c || (ord c =? 178) || (ord c =? 179) || (ord c =? 185).

(** [s.isdigit()]: at least one character, and all of them digits. *)
Definition isdigit (s : str) : bool :=
  match s with
  | [] => false
  | _ => forallb is_digit_char s
  end.

Definition digit_value (c : ascii) : Z := ord c - 48.

(** [int(s)] on the strings the code passes to it, which have all passed
    [isdigit]: the value in base ten when every character is a decimal
    digit, and [None] for the [ValueError] that [int] raises on an empty
    string or on a superscript digit. This is the [int] of the
    interpreters the repository was written for, which set no limit on
    the number of digits. *)
Definition int (s : str) : option Z :=
  match s with
  | [] => None
  | _ => if forallb is_decimal s
         then Some (fold_left (fun acc c => 10 * acc + digit_value c) s 0)
         else None
  end.

(** The index of the first [c] in [s], where the head of [s] has index [i];
    [-1] when there is none. *)
Fixpoint index_from (c : ascii) (s : str) (i : Z) : Z :=
  match s with
  | [] => -1
  | a :: s' => if Ascii.eqb a c then i else index_from c s' (i + 1)
  end.

(** A slice bound brought into [0 .. len], as Python does. *)
Definition clamp (n i : Z) : Z :=
  if i <? 0 then Z.max 0 (i + n) else Z.min i n.

(** [s.find(c, start)] for a one-character [c]. *)
Definition find (s : str) (c : ascii) (start : Z) : Z :=
  let st := if start <? 0 then Z.max 0 (start + len s) else start in
  index_from c (drop (Z.to_nat st) s) st.

(** [s[a:b]] *)
Definition slice (s : str) (a b : Z) : str :=
  let a' := clamp (len s) a in
  let b' := clamp (len s) b in
  take (Z.to_nat (b' - a')) (drop (Z.to_nat a') s).

(** [s[a:]] *)
Definition slice_from (s : str) (a : Z) : str :=
  drop (Z.to_nat (clamp (len s) a)) s.

(** [s[:b]] *)
Definition slice_to (s : str) (b : Z) : str :=
  take (Z.to_nat (clamp (len s) b)) s.

(** [s.split(sep)] for a one-character [sep]: the fields between the
    separators, so a string without separator gives one field. *)
Fixpoint split (sep : ascii) (s : str) : list str :=
  match s with
  | [] => [[]]
  | a :: s' =>
      if Ascii.eqb a sep then [] :: split sep s'
      else match split sep s' with
           | [] => [[a]]
           | f :: fs => (a :: f) :: fs
           end
  end.

(** [s.replace(c, e)] for a one-character [c] and the empty string [e]. *)
Definition remove_char (c : ascii) (s : str) : str :=
  filter (fun a => a ≠ c) s.

(** [c.lower()] below U+0100: A to Z, and the capital letters U+00C0 to
    U+00DE without the multiplication sign U+00D7. The small letter of a
    character below U+0100 is below U+0100 too; what [lower] does above
    is not part of the embedding. *)
Definition lower_char (c : ascii) : ascii :=
  let n := ord c in
  if ((65 <=? n) && (n <=? 90))
     || ((192 <=? n) && (n <=? 222) && negb (n =? 215))
  then chr (Z.to_nat (n + 32))
  else c.

Definition lower (s : str) : str := map lower_char s.

(** The lines a text file yields when iterated: each line keeps its
    newline, the last line may have none. The text is the one the text
    mode of [open] hands over, with every line end already a newline. *)
Fixpoint lines_from (cur : str) (text : str) : list str :=
  match text with
  | [] => match cur with [] => [] | _ => [cur] end
  | a :: text' =>
      if Ascii.eqb a newline then (cur ++ [a]) :: lines_from [] text'
      else lines_from (cur ++ [a]) text'
  end.

Definition readlines (text : str) : list str := lines_from [] text.

End PyStr.

Import PyStr.

(** ** Results of Python code *)

Inductive pyexn := ValueError | KeyError | TypeError | OverflowError.

(** How a block of code ends: it goes on with a value, it returns [None]
    after the given text was written to [sys.stderr], or it raises. *)
Inductive outcome (D A : Type) :=
| Continue (a : A)
| ReturnNone (d : option D)
| Raise (e : pyexn).
Arguments Continue {D A} a.
Arguments ReturnNone {D A} d.
Arguments Raise {D A} e.

(** ** scripts/script_reader.py *)

Module ScriptReader.

(** A command of a script, [(delay, cmd, "parameters")]. *)
Abbreviation command := (Z * str * str)%type.

(** The loaded scripts: script name to the ordered list of its commands. *)
Abbreviation table := (gmap str (list command)).

(** The messages [load_scripts] writes to [sys.stderr]. *)
Inductive diag :=
| NoName (line_n : nat)
| DuplicateName (s_name : str)
| InvalidSplit (first_split second_split first_param second_param : Z) (temp : str)
| DelayNotInteger (delay_str : str).

(** The loop of [_contains_prefix]; after its sanity check the line is
    not shorter than the prefix, so the last case is not reached. *)
Fixpoint prefix_loop (prefix line : str) : bool :=
  match prefix, line with
  | [], _ => true
  | p :: prefix', l :: line' =>
      if Ascii.eqb p l then prefix_loop prefix' line' else false
  | _ :: _, [] => false
  end.

Definition _contains_prefix (prefix line : str) : bool :=
  if (len line <? len prefix) || (len line =? 0) then false
  else prefix_loop prefix line.

(** One round of the loop of [_remove_obsolete_characters], at index [i]. *)
Definition strip_step (mark_char : ascii) (rm_chars line : str)
    (acc : str * bool) (i : nat) : str * bool :=
  let '(output, found) := acc in
  let c := nth i line Ascii.zero in
  let found :=
    if Ascii.eqb c mark_char then
      if negb (i =? 0)%nat && negb (Ascii.eqb (nth (i - 1) line Ascii.zero) backslash)
      then negb found else found
    else found in
  if found || (negb found && negb (char_in c rm_chars))
  then (output ++ [c], found)
  else (output, found).

Definition _remove_obsolete_characters (mark_char : ascii) (rm_chars line : str) : str :=
  fst (fold_left (strip_step mark_char rm_chars line) (seq 0 (length line)) ([], false)).

(** The state of the loop of [load_scripts]: the dictionary [scripts] and
    the current script name [s_name], empty while no script is open. *)
Abbreviation state := (table * str)%type.

Definition tag : str := py "---".

(** The body of the loop of [load_scripts] for line number [line_n]. *)
Definition load_line (st : state) (line_n : nat) (line : str) : outcome diag state :=
  let '(scripts, s_name) := st in
  let temp := _remove_obsolete_characters dquote whitespace line in
  match s_name with
  | [] =>
      if _contains_prefix tag temp then
        if len temp <? 4 then ReturnNone (Some (NoName line_n))
        else
          let s_name := slice_from temp 3 in
          if bool_decide (s_name ∈ dom scripts)
          then ReturnNone (Some (DuplicateName s_name))
          else Continue (<[s_name := []]> scripts, s_name)
      else Continue (scripts, s_name)
  | _ :: _ =>
      if (len temp =? 0) || char_in (nth 0 temp Ascii.zero) (py "#%") then Continue (scripts, s_name)
      else if _contains_prefix tag temp then Continue (scripts, [])
      else
        let first_split := find temp comma 0 in
        let second_split := find temp comma (first_split + 1) in
        let first_param := find temp dquote (second_split + 1) in
        let second_param := find temp dquote (first_param + 1) in
        if (first_split <=? 0) || (second_split <=? 0) || (first_param <=? 0)
           || (second_param <=? 0) || (second_split <=? first_split)
           || (first_param <=? second_split) || (second_param <=? first_param)
        then ReturnNone (Some (InvalidSplit first_split second_split first_param second_param temp))
        else
          let delay_str := slice_to temp first_split in
          let cmd_str := slice temp (first_split + 1) second_split in
          let param_str := slice temp (first_param + 1) second_param in
          if negb (isdigit delay_str) then ReturnNone (Some (DelayNotInteger delay_str))
          else
            match scripts !! s_name with
            | None => Raise KeyError
            | Some cmds =>
                match int delay_str with
                | None => Raise ValueError
                | Some delay =>
                    Continue (<[s_name := cmds ++ [(delay, cmd_str, param_str)]]> scripts, s_name)
                end
            end
  end.

Arguments load_line : simpl never.

(** The loop [for line_n, line in enumerate(f, 1)], from line number
    [line_n] on. *)
Fixpoint load_loop (st : state) (line_n : nat) (lines : list str) : outcome diag state :=
  match lines with
  | [] => Continue st
  | line :: lines' =>
      match load_line st line_n line with
      | Continue st' => load_loop st' (S line_n) lines'
      | ReturnNone d => ReturnNone d
      | Raise e => Raise e
      end
  end.

Definition initial : state := (∅, []).

(** [load_scripts] on the lines of an existing file: the dictionary. *)
Definition load_lines (lines : list str) : outcome diag table :=
  match load_loop initial 1 lines with
  | Continue (scripts, _) => Continue scripts
  | ReturnNone d => ReturnNone d
  | Raise e => Raise e
  end.

(** [load_scripts(filename)], where [file] is the text of the file, or
    [None] when [os.path.isfile(filename)] is false. The text is what
    reading the file in text mode gives: a file that cannot be opened or
    whose bytes do not decode ends [load_scripts] with the exception of
    [open] or of the decoder, without a dictionary, and is not a [file]
    of this embedding. *)
Definition load_scripts (file : option str) : outcome diag table :=
  match file with
  | None => ReturnNone None
  | Some text => load_lines (readlines text)
  end.

(** The dictionary a caller gets, if any. *)
Definition returned_table (r : outcome diag table) : option table :=
  match r with
  | Continue scripts => Some scripts
  | _ => None
  end.

End ScriptReader.

(** ** winkeys/winkeys.py *)

Inductive result (A : Type) :=
| Ok (a : A)
| Exn (e : pyexn).
Arguments Ok {A} a.
Arguments Exn {A} e.

Module WinKeys.

Definition timeout : Z := 5.

Inductive MouseKey := RIGHT_BUTTON | LEFT_BUTTON | MIDDLE_BUTTON.

Definition INPUT_MOUSE : Z := 0x00.
Definition INPUT_KEYBOARD : Z := 0x01.
Definition KEY_EVENT_RELEASE : Z := 0x0002.
Definition MOUSE_EVENT_MOVE : Z := 0x0001.
Definition MOUSE_EVENT_ABSOLUTE : Z := 0x8000.
Definition MOUSE_EVENT_LEFT_PRESS : Z := 0x0002.
Definition MOUSE_EVENT_LEFT_RELEASE : Z := 0x0004.
Definition MOUSE_EVENT_RIGHT_PRESS : Z := 0x0008.
Definition MOUSE_EVENT_RIGHT_RELEASE : Z := 0x0010.
Definition MOUSE_EVENT_MIDDLE_PRESS : Z := 0x0020.
Definition MOUSE_EVENT_MIDDLE_RELEASE : Z := 0x0040.
Definition MOUSE_EVENT_COORDINATES : Z := 65535.

(** The conversions of [ctypes]: [c_long] and [c_ulong] have 32 bits on
    Windows, [c_ushort] has 16; a value out of range wraps around. *)
Definition c_long (v : Z) : Z := (v + 2 ^ 31) mod 2 ^ 32 - 2 ^ 31.
Definition c_ulong (v : Z) : Z := v mod 2 ^ 32.
Definition c_ushort (v : Z) : Z := v mod 2 ^ 16.

(** The [CInput] structures the module builds; the fields it leaves out
    are zero. *)
Inductive CInput :=
| CMouseInput (dx dy : Z) (dwFlags : Z)
| CKeyBdInput (wVk : Z) (dwFlags : Z).

(** The messages written to [sys.stderr] by the execution API and by the
    script executor. *)
Inductive message :=
| CouldNotWrite (c : str) (sequence : str)
| NotAnInteger (x y : str)
| InvalidHoldButton (key : str)
| InvalidReleaseButton (key : str)
| CommandMissing (name : str)
| CommandArity (name : str) (expected : Z) (got : Z)
| NoScriptLoaded (script_name : str).

(** What the outside sees, in order: a blocking sleep of [ms]
    milliseconds, one call of [SendInput], one line on [sys.stderr]. *)
Inductive event :=
| Sleep (ms : Z)
| SendInput (inp : CInput)
| Stderr (msg : message).

(** The module state ([_SCREEN_WIDTH_PX] and the like, set by
    [refresh_monitor_size]) and the events so far. *)
Record world := World {
  _SCREEN_WIDTH_PX : Z;
  _SCREEN_HEIGHT_PX : Z;
  _SCREEN_X_MULTIPLIER : Z;
  _SCREEN_Y_MULTIPLIER : Z;
  trace : list event
}.

Definition emit (evs : list event) (w : world) : world :=
  World (_SCREEN_WIDTH_PX w) (_SCREEN_HEIGHT_PX w)
        (_SCREEN_X_MULTIPLIER w) (_SCREEN_Y_MULTIPLIER w) (trace w ++ evs).

(** [refresh_monitor_size], where [GetSystemMetrics] answers [width] and
    [height], both positive; [//] is floor division. *)
Definition refresh_monitor_size (width height : Z) (w : world) : world :=
  World width height
        (MOUSE_EVENT_COORDINATES / width) (MOUSE_EVENT_COORDINATES / height)
        (trace w).

Definition get_primary_resolution (w : world) : Z * Z :=
  (_SCREEN_WIDTH_PX w, _SCREEN_HEIGHT_PX w).

(** [_add_sequence_keys]: [zip(keys, range(start, start + len(keys)))]. *)
Fixpoint _add_sequence_keys (key_dict : gmap str Z) (keys : list str) (start : Z) : gmap str Z :=
  match keys with
  | [] => key_dict
  | key :: keys' => _add_sequence_keys (<[key := start]> key_dict) keys' (start + 1)
  end.

(** The characters of a string, as the one-character strings an
    iteration over it gives. *)
Definition chars (s : str) : list str := map (fun c => [c]) s.

Definition function_keys : list str :=
  map py ["F1"; "F2"; "F3"; "F4"; "F5"; "F6"; "F7"; "F8"; "F9"; "F10";
          "F11"; "F12"; "F13"; "F14"; "F15"; "F16"; "F17"; "F18";
          "F19"; "F20"; "F21"; "F22"; "F23"; "F24"]%string.

Definition special_keys : list (string * Z) :=
  [("backspace", 0x08); ("tab", 0x09); ("enter", 0x0D); ("shift", 0x10);
   ("ctrl", 0x11); ("alt", 0x12); ("pause", 0x13); ("caps", 0x14);
   ("esc", 0x1B); ("space", 0x20); ("page-up", 0x21); ("page-down", 0x22);
   ("end", 0x23); ("home", 0x24); ("left", 0x25); ("up", 0x26);
   ("right", 0x27); ("down", 0x28); ("select", 0x29); ("print", 0x2A);
   ("execute", 0x2B); ("prtscn", 0x2C); ("insert", 0x2D); ("delete", 0x2E);
   ("win", 0x5B); ("vol-mute", 0xAD); ("vol-down", 0xAE); ("vol-up", 0xAF);
   ("media-next", 0xB0); ("media-prev", 0xB1); ("media-stop", 0xB2);
   ("media_pp", 0xB3)]%string.

(** The dictionary [_win_key] after the module is loaded. *)
Definition _win_key : gmap str Z :=
  let d := _add_sequence_keys ∅ (chars digits) 0x30 in
  let d := _add_sequence_keys d (chars ascii_lowercase) 0x41 in
  let d := _add_sequence_keys d (chars ascii_uppercase) 0x41 in
  let d := _add_sequence_keys d function_keys 0x70 in
  fold_left (fun d kv => <[py (fst kv) := snd kv]> d) special_keys d.

Definition _get_hex_code (key : str) : option Z := _win_key !! key.

Definition _sleep (ms : Z) (w : world) : world := emit [Sleep ms] w.

Definition _send_input (c_input : CInput) (w : world) : world :=
  emit [SendInput c_input] w.

Definition mouse_move (x y : Z) (relative : bool) (w : world) : bool * world :=
  if (x <? 0) || (x >? _SCREEN_WIDTH_PX w) || (y <? 0) || (y >? _SCREEN_HEIGHT_PX w)
  then (false, w)
  else
    let flags := MOUSE_EVENT_MOVE in
    let flags := if negb relative then Z.lor flags MOUSE_EVENT_ABSOLUTE else flags in
    let inp_struct :=
      CMouseInput (c_long (x * _SCREEN_X_MULTIPLIER w))
                  (c_long (y * _SCREEN_Y_MULTIPLIER w)) (c_ulong flags) in
    (true, _send_input inp_struct w).

Definition mouse_hold (mouse_btn : MouseKey) (w : world) : bool * world :=
  let flags :=
    match mouse_btn with
    | LEFT_BUTTON => Z.lor 0 MOUSE_EVENT_LEFT_PRESS
    | RIGHT_BUTTON => Z.lor 0 MOUSE_EVENT_RIGHT_PRESS
    | MIDDLE_BUTTON => Z.lor 0 MOUSE_EVENT_MIDDLE_PRESS
    end in
  (true, _send_input (CMouseInput 0 0 (c_ulong flags)) w).

Definition mouse_release (mouse_btn : MouseKey) (w : world) : bool * world :=
  let flags :=
    match mouse_btn with
    | LEFT_BUTTON => Z.lor 0 MOUSE_EVENT_LEFT_RELEASE
    | RIGHT_BUTTON => Z.lor 0 MOUSE_EVENT_RIGHT_RELEASE
    | MIDDLE_BUTTON => Z.lor 0 MOUSE_EVENT_MIDDLE_RELEASE
    end in
  (true, _send_input (CMouseInput 0 0 (c_ulong flags)) w).

Definition _keyboard_hold (key_code : Z) (w : world) : world :=
  _send_input (CKeyBdInput (c_ushort key_code) 0) w.

Definition _keyboard_release (key_code : Z) (w : world) : world :=
  _send_input (CKeyBdInput (c_ushort key_code) (c_ulong KEY_EVENT_RELEASE)) w.

Definition keyboard_press (key : str) (w : world) : bool * world :=
  match _get_hex_code key with
  | None => (false, w)
  | Some key_code =>
      let w := _keyboard_hold key_code w in
      let w := _sleep timeout w in
      let w := _keyboard_release key_code w in
      (true, w)
  end.

(** The first loop of [keyboard_press_combo]: the key codes of [keys], or
    [None] where the loop returns [False]. *)
Fixpoint resolve_keys (keys : list str) (handled_keys : gset Z) (key_codes : list Z)
    : option (list Z) :=
  match keys with
  | [] => Some key_codes
  | key :: keys' =>
      match _get_hex_code key with
      | None => None
      | Some key_code =>
          if bool_decide (key_code ∈ handled_keys) then None
          else resolve_keys keys' ({[key_code]} ∪ handled_keys) (key_codes ++ [key_code])
      end
  end.

Definition keyboard_press_combo (key_set : str) (w : world) : bool * world :=
  let keys := split plus_sign (remove_char space key_set) in
  match resolve_keys keys ∅ [] with
  | None => (false, w)
  | Some key_codes =>
      let w := fold_left (fun w key_code => _keyboard_hold key_code w) key_codes w in
      let w := _sleep timeout w in
      let w := fold_left (fun w key_code => _keyboard_release key_code w) (rev key_codes) w in
      (true, w)
  end.

End WinKeys.

Import WinKeys.

(** ** scripts/execution_api.py *)

Module ExecutionAPI.

(** What a handler gives back: [Ok (Some b)] for the boolean [b],
    [Ok None] for [None], [Exn e] when it raises. *)
Abbreviation answer := (result (option bool) * world)%type.

Definition press (sequence : str) (w : world) : answer :=
  let '(b, w) := keyboard_press_combo sequence w in (Ok (Some b), w).

(** The loop [for c in sequence] of [write], with the characters still
    to do. *)
Fixpoint write_loop (sequence : str) (todo : str) (w : world) : answer :=
  match todo with
  | [] => (Ok (Some true), w)
  | c :: todo' =>
      match keyboard_press [c] w with
      | (false, w) => (Ok (Some false), emit [Stderr (CouldNotWrite [c] sequence)] w)
      | (true, w) => write_loop sequence todo' w
      end
  end.

Definition write (sequence : str) (w : world) : answer :=
  write_loop sequence sequence w.

Definition move (x y : str) (w : world) : answer :=
  if negb (isdigit x) || negb (isdigit y)
  then (Ok None, emit [Stderr (NotAnInteger x y)] w)
  else
    match int x with
    | None => (Exn ValueError, w)
    | Some xi =>
        match int y with
        | None => (Exn ValueError, w)
        | Some yi => let '(b, w) := mouse_move xi yi false w in (Ok (Some b), w)
        end
    end.

Definition button (key : str) : option MouseKey :=
  if bool_decide (lower key = py "right") then Some RIGHT_BUTTON
  else if bool_decide (lower key = py "middle") then Some MIDDLE_BUTTON
  else if bool_decide (lower key = py "left") then Some LEFT_BUTTON
  else None.

Definition hold_mouse (key : str) (w : world) : answer :=
  match button key with
  | None => (Ok (Some false), emit [Stderr (InvalidHoldButton key)] w)
  | Some key_code => let '(b, w) := mouse_hold key_code w in (Ok (Some b), w)
  end.

Definition release_mouse (key : str) (w : world) : answer :=
  match button key with
  | None => (Ok (Some false), emit [Stderr (InvalidReleaseButton key)] w)
  | Some key_code => let '(b, w) := mouse_release key_code w in (Ok (Some b), w)
  end.

End ExecutionAPI.

(** ** scripts/script_executor.py *)

Module ScriptExecutor.

Import ScriptReader.

(** A handler called as [handler( *parameters)]. *)
Abbreviation handler := (list str -> world -> ExecutionAPI.answer).

Definition call1 (f : str -> world -> ExecutionAPI.answer) : handler :=
  fun parameters w =>
    match parameters with
    | [a] => f a w
    | _ => (Exn TypeError, w)
    end.

Definition call2 (f : str -> str -> world -> ExecutionAPI.answer) : handler :=
  fun parameters w =>
    match parameters with
    | [a; b] => f a b w
    | _ => (Exn TypeError, w)
    end.

(** The class attribute [_commands]: the number of parameters and the
    handler of each command. *)
Definition _commands : gmap str (Z * handler) :=
  <[py "press" := (1, call1 ExecutionAPI.press)]>
  (<[py "write" := (1, call1 ExecutionAPI.write)]>
  (<[py "move" := (2, call2 ExecutionAPI.move)]>
  (<[py "hold_mouse" := (1, call1 ExecutionAPI.hold_mouse)]>
  (<[py "release_mouse" := (1, call1 ExecutionAPI.release_mouse)]> ∅)))).

(** The longest sleep, in milliseconds: [time.sleep] counts the time in
    nanoseconds on 64 bits. *)
Definition sleep_limit : Z := 9223372036854.

(** What [sleep(delay / 1000)] raises, if anything: [OverflowError] when
    the delay does not fit the clock (or is too large an integer for the
    division to give a float), [ValueError] when it is negative. *)
Definition sleep (delay : Z) : option pyexn :=
  if (delay <? - sleep_limit) || (sleep_limit <? delay) then Some OverflowError
  else if delay <? 0 then Some ValueError
  else None.

(** [_internal_execute]. A command is a 3-tuple, so the test
    [len(command) != 3] never holds. *)
Fixpoint _internal_execute (script : list command) (w : world) : result bool * world :=
  match script with
  | [] => (Ok true, w)
  | (delay, name, raw_params) :: script' =>
      match sleep delay with
      | Some e => (Exn e, w)
      | None =>
        let w := emit [Sleep delay] w in
        match _commands !! name with
        | None => (Ok false, emit [Stderr (CommandMissing name)] w)
        | Some (arity, handle) =>
            let parameters := split comma raw_params in
            if negb (len parameters =? arity)
            then (Ok false, emit [Stderr (CommandArity name arity (len parameters))] w)
            else
              match handle parameters w with
              | (Ok _, w) => _internal_execute script' w
              | (Exn e, w) => (Exn e, w)
              end
        end
      end
  end.

(** A [ScriptExecutor] object: its attribute [scripts], which is [None]
    when [load_scripts] returned [None]. *)
Record executor := Executor { scripts : option table }.

(** [ScriptExecutor(filename)]; raises when [load_scripts] does. *)
Definition new (file : option str) : result executor :=
  match load_scripts file with
  | Continue t => Ok (Executor (Some t))
  | ReturnNone _ => Ok (Executor None)
  | Raise e => Exn e
  end.

Definition execute (self : executor) (script_name : str) (w : world) : result bool * world :=
  match scripts self with
  | None => (Ok false, emit [Stderr (NoScriptLoaded script_name)] w)
  | Some t =>
      if bool_decide (t = ∅) then (Ok false, emit [Stderr (NoScriptLoaded script_name)] w)
      else
        match t !! script_name with
        | None => (Ok false, emit [Stderr (NoScriptLoaded script_name)] w)
        | Some script => _internal_execute script w
        end
  end.

End ScriptExecutor.

(** ** The script format, in the words of the specification *)

Module Format.

Import ScriptReader.

(** The line after the whitespace outside quoted groups is removed. *)
Definition stripped (line : str) : str :=
  _remove_obsolete_characters dquote whitespace line.

(** A line that is consulted as a command while a script is open: not
    empty, not starting with [#] or [%], not starting with [---]. *)
Definition body_line (temp : str) : Prop :=
  temp ≠ [] ∧ head temp ≠ Some (chr 35) ∧ head temp ≠ Some (chr 37)
  ∧ ¬ tag `prefix_of` temp.

(** The first comma, the next comma after it, the first quote after that
    second comma and the next quote after that. *)
Definition first_comma (temp : str) : Z := find temp comma 0.
Definition second_comma (temp : str) : Z := find temp comma (first_comma temp + 1).
Definition first_quote (temp : str) : Z := find temp dquote (second_comma temp + 1).
Definition second_quote (temp : str) : Z := find temp dquote (first_quote temp + 1).

(** An index lookup succeeded: [find] gives [-1] when it does not. *)
Definition found (i : Z) : Prop := 0 ≤ i.

(** All four lookups succeed and are strictly increasing in that order. *)
Definition boundaries_ok (temp : str) : Prop :=
  found (first_comma temp) ∧ found (second_comma temp)
  ∧ found (first_quote temp) ∧ found (second_quote temp)
  ∧ first_comma temp < second_comma temp
  ∧ second_comma temp < first_quote temp
  ∧ first_quote temp < second_quote temp.

Definition delay_field (temp : str) : str := slice_to temp (first_comma temp).
Definition command_field (temp : str) : str :=
  slice temp (first_comma temp + 1) (second_comma temp).
Definition param_field (temp : str) : str :=
  slice temp (first_quote temp + 1) (second_quote temp).

(** A field that consists only of decimal digits: a non-negative integer
    literal, so at least one digit. *)
Definition decimal_field (s : str) : Prop :=
  s ≠ [] ∧ Forall (fun c => is_decimal c = true) s.

(** The four parse errors: what makes the line [temp] (already stripped)
    an error in the state the parser is in. *)
Inductive parse_error : state -> str -> Prop :=
| empty_script_name scripts :
    parse_error (scripts, []) tag
| duplicate_script_name scripts name :
    name ≠ [] -> is_Some (scripts !! name) ->
    parse_error (scripts, []) (tag ++ name)
| bad_field_boundaries scripts s_name temp :
    s_name ≠ [] -> body_line temp -> ¬ boundaries_ok temp ->
    parse_error (scripts, s_name) temp
| non_digit_delay scripts s_name temp :
    s_name ≠ [] -> body_line temp -> boundaries_ok temp ->
    ¬ decimal_field (delay_field temp) ->
    parse_error (scripts, s_name) temp.

(** A table is kept by a later one: every script is still there, with
    the commands it had at the front of its commands. *)
Definition kept_in (t1 t2 : table) : Prop :=
  ∀ name cmds, t1 !! name = Some cmds -> ∃ more, t2 !! name = Some (cmds ++ more).

(** The script that is open is in the dictionary. *)
Definition open_in_table (st : state) : Prop := st.2 ≠ [] -> is_Some (st.1 !! st.2).

(** The loop left early, with [None] or with an exception. *)
Definition stopped {D A : Type} (r : outcome D A) : Prop :=
  match r with
  | Continue _ => False
  | _ => True
  end.

(** The outcome without the line number of its message. *)
Definition without_line_n {A : Type} (r : outcome diag A) : outcome diag A :=
  match r with
  | ReturnNone (Some (NoName _)) => ReturnNone (Some (NoName 0))
  | _ => r
  end.

(** The command a body line stands for, if it is one. *)
Definition parse_command (temp : str) : option command :=
  if bool_decide (boundaries_ok temp) then
    delay ← int (delay_field temp);
    Some (delay, command_field temp, param_field temp)
  else None.

(** The commands of the lines of an open script that is not closed:
    empty lines and lines starting with [#] or [%] count for nothing,
    every other line is a command; [None] when a line closes the script
    or is not a command. *)
Fixpoint body_commands (body : list str) : option (list command) :=
  match body with
  | [] => Some []
  | line :: body' =>
      let temp := stripped line in
      if bool_decide (temp = [] ∨ head temp = Some (chr 35) ∨ head temp = Some (chr 37))
      then body_commands body'
      else if bool_decide (tag `prefix_of` temp) then None
      else
        cmd ← parse_command temp;
        cmds ← body_commands body';
        Some (cmd :: cmds)
  end.

(** The scripts of a text, in the order of the text, as the format
    words them. Outside a script a line starting with [---] opens the
    script named by the rest of the line, and there are no scripts at all
    when that name is empty or the name of a script met before; any other
    line outside a script counts for nothing. Inside a script an empty
    line and a line starting with [#] or [%] count for nothing, a line
    starting with [---] closes the script, and every other line is a
    command of it, or there are no scripts at all. At the end of the
    text the script still open is a script as well. [closed] are the
    scripts closed so far and [cur] is the open one. *)
Fixpoint scripts_from (closed : list (str * list command))
    (cur : option (str * list command)) (lines : list str)
    : option (list (str * list command)) :=
  match lines with
  | [] => Some (match cur with Some script => closed ++ [script] | None => closed end)
  | line :: lines' =>
      let temp := stripped line in
      match cur with
      | None =>
          if bool_decide (tag `prefix_of` temp) then
            let name := drop 3 temp in
            if bool_decide (name = [] ∨ name ∈ closed.*1) then None
            else scripts_from closed (Some (name, [])) lines'
          else scripts_from closed None lines'
      | Some (name, cmds) =>
          if bool_decide (temp = [] ∨ head temp = Some (chr 35) ∨ head temp = Some (chr 37))
          then scripts_from closed cur lines'
          else if bool_decide (tag `prefix_of` temp)
          then scripts_from (closed ++ [(name, cmds)]) None lines'
          else
            cmd ← parse_command temp;
            scripts_from closed (Some (name, cmds ++ [cmd])) lines'
      end
  end.

Definition scripts_of (lines : list str) : option (list (str * list command)) :=
  scripts_from [] None lines.

(** The state of the loop that holds the scripts [closed] and the open
    script [cur]. *)
Definition state_of (closed : list (str * list command))
    (cur : option (str * list command)) : state :=
  match cur with
  | None => (list_to_map closed, [])
  | Some (name, cmds) => (<[name := cmds]> (list_to_map closed), name)
  end.

(** The whitespace stripping as the specification words it: the quoted
    state toggles at every quote that is not immediately preceded by a
    backslash, whitespace is kept inside a quoted span and removed
    outside, every other character is kept. [prev] is the character
    before the head of [line], [quoted] the state before it. *)
Fixpoint strip_spec_from (prev : option ascii) (quoted : bool) (line : str) : str :=
  match line with
  | [] => []
  | c :: line' =>
      let toggles := Ascii.eqb c dquote && negb (bool_decide (prev = Some backslash)) in
      let quoted' := xorb quoted toggles in
      if char_in c whitespace && negb quoted'
      then strip_spec_from (Some c) quoted' line'
      else c :: strip_spec_from (Some c) quoted' line'
  end.

Definition strip_spec (line : str) : str := strip_spec_from None false line.

(** The loop of [_remove_obsolete_characters] written over the characters
    still to read: [prev] is [line[i - 1]], and [None] at index 0. *)
Fixpoint strip_loop_from (mark_char : ascii) (rm_chars : str)
    (prev : option ascii) (found : bool) (rest : str) : str :=
  match rest with
  | [] => []
  | c :: rest' =>
      let found :=
        if Ascii.eqb c mark_char then
          match prev with
          | Some p => if negb (Ascii.eqb p backslash) then negb found else found
          | None => found
          end
        else found in
      if found || (negb found && negb (char_in c rm_chars))
      then c :: strip_loop_from mark_char rm_chars (Some c) found rest'
      else strip_loop_from mark_char rm_chars (Some c) found rest'
  end.

(** The events of holding and of releasing a key. *)
Definition hold_event (key_code : Z) : event :=
  SendInput (CKeyBdInput (c_ushort key_code) 0).
Definition release_event (key_code : Z) : event :=
  SendInput (CKeyBdInput (c_ushort key_code) (c_ulong KEY_EVENT_RELEASE)).

(** The events of pressing one key: hold, wait, release. *)
Definition press_events (key_code : Z) : list event :=
  [hold_event key_code; Sleep timeout; release_event key_code].

(** The events of writing one character, none when it has no key. *)
Definition char_events (c : ascii) : list event :=
  match _get_hex_code [c] with
  | Some key_code => press_events key_code
  | None => []
  end.

(** The press handler as the specification words it: the identifiers
    are the fields between the [+] signs once backslashes and spaces are
    dropped; it fails when an identifier is unknown or occurs twice. *)
Definition press_spec (seq : str) (w : world) : ExecutionAPI.answer :=
  let ids := split plus_sign (remove_char backslash (remove_char space seq)) in
  match mapM _get_hex_code ids with
  | Some key_codes =>
      if bool_decide (NoDup ids)
      then (Ok (Some true),
            emit (map hold_event key_codes ++ [Sleep timeout]
                  ++ map release_event (rev key_codes)) w)
      else (Ok (Some false), w)
  | None => (Ok (Some false), w)
  end.

(** The events that are not diagnostics: sleeps and injected input. *)
Definition is_input (e : event) : bool :=
  match e with
  | Stderr _ => false
  | _ => true
  end.
Definition inputs (w : world) : list event := List.filter is_input (trace w).




End Format.

Import ScriptReader Format.

(** ** Sample scripts *)

Module Samples.

Import ScriptReader.

(** A quoted group and a line of a file. *)
Definition quoted (s : str) : str := dquote :: s ++ [dquote].
Definition line_of (s : str) : str := s ++ [newline].

Definition open_A : str := line_of (py "---A").
Definition open_B : str := line_of (py "---B").
Definition close : str := line_of (py "---").
Definition press_ctrl_c : str := line_of (py "0,press," ++ quoted (py "ctrl+c")).
Definition move_10_20 : str := line_of (py "5,move," ++ quoted (py "10,20")).
Definition abc_delay : str := line_of (py "abc,press," ++ quoted (py "a")).
Definition no_delay : str := line_of (py ",press," ++ quoted (py "a")).
Definition free_text : str := line_of (py "notes, not a script").

(** Two scripts with the same name. *)
Definition twice_A : str := open_A ++ press_ctrl_c ++ close ++ open_A ++ close.

(** The script [A], a line between the scripts, and the script [B]
    that is left open. *)
Definition A_then_B : str :=
  open_A ++ press_ctrl_c ++ close ++ free_text ++ open_B ++ move_10_20.

(** The table with the one script of the first sample of the
    specification. *)
Definition table_A : table := <[py "A" := [(0, py "press", py "ctrl+c")]]> ∅.

(** A desktop of 1920 by 1080 on which nothing has happened yet. *)
Definition desktop : world := refresh_monitor_size 1920 1080 (World 0 0 0 0 []).

End Samples.

Import Samples.

(** ** What the loaded tables and the traces are looked at for *)

Module Observations.

Import ScriptReader Format Samples.

(** A line that is passed over wherever it stands: empty once stripped,
    or starting with [#] or [%]. *)
Definition passed_over (line : str) : Prop :=
  stripped line = [] ∨ head (stripped line) = Some (chr 35)
  ∨ head (stripped line) = Some (chr 37).

(** A command as the loop of [load_scripts] builds them: the delay is not
    negative, the command name holds no comma and the parameter text no
    quote. *)
Definition command_ok (c : command) : Prop :=
  0 ≤ c.1.1 ∧ (comma ∉ c.1.2) ∧ (dquote ∉ c.2).

(** A table as [load_scripts] builds them: no script has the empty name
    and every command is as above. *)
Definition table_ok (t : table) : Prop :=
  ∀ name cmds, t !! name = Some cmds -> name ≠ [] ∧ Forall command_ok cmds.



(** The keys that are down after the events [evs] when the keys of [down]
    were down before: a keyboard input without the release flag puts its
    key down, one with the flag lets it up. *)
Definition key_step (down : gset Z) (e : event) : gset Z :=
  match e with
  | SendInput (CKeyBdInput wVk dwFlags) =>
      if Z.land dwFlags KEY_EVENT_RELEASE =? 0 then {[wVk]} ∪ down else down ∖ {[wVk]}
  | _ => down
  end.
Definition keys_down_after (down : gset Z) (evs : list event) : gset Z :=
  fold_left key_step evs down.
Definition keys_down (w : world) : gset Z := keys_down_after ∅ (trace w).

(** Events that leave no key down that was not down before. *)
Definition key_neutral (evs : list event) : Prop :=
  ∀ down : gset Z, keys_down_after down evs ⊆ down.

(** The letters A to Z and a to z and the digits 0 to 9. *)
Definition alnum (c : ascii) : bool :=
  is_decimal c || ((65 <=? ord c) && (ord c <=? 90)) || ((97 <=? ord c) && (ord c <=? 122)).

(** The names of the mouse buttons. *)
Definition button_names : list str := [py "left"; py "right"; py "middle"].

(** A line whose delay is the superscript two. *)
Definition superscript_delay : str :=
  line_of (chr 178 :: py ",press," ++ quoted (py "a")).

(** Two more sample lines: a comment and a blank line. *)
Definition comment_line : str := line_of (py "  # wait for the window").
Definition blank_line : str := line_of (py "   ").

(** The small letter of a capital letter A to Z; every other character
    is left as it is. *)
Definition small_letter (c : ascii) : ascii :=
  if (65 <=? ord c) && (ord c <=? 90) then chr (Z.to_nat (ord c + 32)) else c.

Definition small_letters (s : str) : str := map small_letter s.

End Observations.

Import Observations.

(** * Properties *)

(** ** Strings *)

Section Strings.

Lemma eqb_char_true (a b : ascii) : Ascii.eqb a b = true <-> a = b.
Proof. apply Ascii.eqb_eq. Qed.

Lemma eqb_char_false (a b : ascii) : Ascii.eqb a b = false <-> a ≠ b.
Proof. apply Ascii.eqb_neq. Qed.

Lemma char_in_elem (c : ascii) (s : str) : char_in c s = true <-> c ∈ s.
Proof.
  unfold char_in. rewrite existsb_exists. split.
  - intros (x & Hx & Heq). apply eqb_char_true in Heq. subst.
    by apply list_elem_of_In.
  - intros Hc. exists c. split; [by apply list_elem_of_In | by apply eqb_char_true].
Qed.

Lemma prefix_loop_spec (prefix line : str) :
  prefix_loop prefix line = true <-> prefix `prefix_of` line.
Proof.
  revert line. induction prefix as [|p prefix IH]; intros line; simpl.
  - split; [intros _; apply prefix_nil | done].
  - destruct line as [|l line].
    + split; [done | intros H; by apply prefix_nil_not in H].
    + destruct (Ascii.eqb p l) eqn:E.
      * apply eqb_char_true in E. subst. rewrite IH. split.
        -- apply prefix_cons.
        -- apply prefix_cons_inv_2.
      * apply eqb_char_false in E. split; [done |].
        intros H. apply prefix_cons_inv_1 in H. done.
Qed.

(** For a prefix that is not empty, [_contains_prefix] is the prefix
    relation. *)
Lemma contains_prefix_spec (prefix line : str) :
  prefix ≠ [] ->
  _contains_prefix prefix line = true <-> prefix `prefix_of` line.
Proof.
  intros Hne. unfold _contains_prefix, len.
  destruct ((Z.of_nat (length line) <? Z.of_nat (length prefix))
            || (Z.of_nat (length line) =? 0)) eqn:E.
  - split; [done |]. intros Hp. exfalso.
    apply orb_true_iff in E. apply prefix_length in Hp.
    destruct E as [E | E]; [apply Z.ltb_lt in E; lia |].
    apply Z.eqb_eq in E. destruct prefix; [done | simpl in Hp; lia].
  - apply prefix_loop_spec.
Qed.

(** [index_from] gives the first place of the character, counted from
    [i], and [-1] only when the character is not there. *)
Lemma index_from_spec (c : ascii) (s : str) (i : Z) :
  0 ≤ i ->
  (index_from c s i = -1 ∧ c ∉ s)
  ∨ ((i ≤ index_from c s i < i + len s)
     ∧ s !! Z.to_nat (index_from c s i - i) = Some c
     ∧ ∀ k : nat, (k < Z.to_nat (index_from c s i - i))%nat -> s !! k ≠ Some c).
Proof.
  revert i. induction s as [|a s IH]; intros i Hi.
  - left. split; [done |]. apply not_elem_of_nil.
  - cbn [index_from]. destruct (Ascii.eqb a c) eqn:E.
    + apply eqb_char_true in E. subst a. right.
      replace (i - i) with 0 by lia. unfold len. simpl length.
      split; [lia |]. split; [done |]. intros k Hk. simpl in Hk. lia.
    + apply eqb_char_false in E.
      destruct (IH (i + 1)) as [[H1 H2] | (H1 & H2 & H3)]; [lia | |].
      * left. split; [done |]. intros Hin. apply elem_of_cons in Hin as [-> | Hin]; done.
      * right. unfold len in *. simpl length.
        replace (Z.to_nat (index_from c s (i + 1) - i))
          with (S (Z.to_nat (index_from c s (i + 1) - (i + 1)))) by lia.
        split; [lia |]. split; [done |].
        intros [|k] Hk; simpl; [congruence |]. apply H3. lia.
Qed.

(** [find] from a start that is not negative: [-1] when the character does
    not occur from there on, and otherwise the first index from the start
    that holds it. *)
Lemma find_spec (s : str) (c : ascii) (start : Z) :
  0 ≤ start ->
  (find s c start = -1 ∧ c ∉ drop (Z.to_nat start) s)
  ∨ ((start ≤ find s c start < len s)
     ∧ s !! Z.to_nat (find s c start) = Some c
     ∧ ∀ j : nat, start ≤ Z.of_nat j < find s c start -> s !! j ≠ Some c).
Proof.
  intros Hs. unfold find.
  assert ((start <? 0) = false) as -> by (apply Z.ltb_ge; lia).
  destruct (index_from_spec c (drop (Z.to_nat start) s) start Hs)
    as [[H1 H2] | (H1 & H2 & H3)]; [by left | right].
  set (r := index_from c (drop (Z.to_nat start) s) start) in *.
  rewrite lookup_drop in H2.
  replace (Z.to_nat start + Z.to_nat (r - start))%nat with (Z.to_nat r) in H2 by lia.
  assert (Z.to_nat r < length s)%nat as Hlt by (by apply lookup_lt_Some in H2).
  split; [unfold len; lia |]. split; [done |].
  intros j Hj. specialize (H3 (j - Z.to_nat start)%nat).
  rewrite lookup_drop in H3.
  replace (Z.to_nat start + (j - Z.to_nat start))%nat with j in H3 by lia.
  apply H3. lia.
Qed.

Lemma tag_not_empty : tag ≠ [].
Proof. done. Qed.

Lemma slice_to_zero (s : str) : slice_to s 0 = [].
Proof.
  unfold slice_to, clamp. simpl.
  replace (Z.to_nat (Z.min 0 (len s))) with 0%nat by (unfold len; lia).
  done.
Qed.

Lemma decimal_is_digit (s : str) : decimal_field s -> isdigit s = true.
Proof.
  intros [Hne Hall]. destruct s as [|c s]; [done |].
  unfold isdigit. apply forallb_forall. intros x Hx.
  apply list_elem_of_In in Hx. rewrite Forall_forall in Hall.
  unfold is_digit_char. by rewrite (Hall x Hx).
Qed.

Lemma digits_value_nonneg (s : str) (acc : Z) :
  0 ≤ acc -> Forall (fun c => is_decimal c = true) s ->
  0 ≤ fold_left (fun acc c => 10 * acc + digit_value c) s acc.
Proof.
  revert acc. induction s as [|c s IH]; intros acc Hacc Hall; simpl; [done |].
  inversion Hall as [|? ? Hc Hs]; subst. apply IH; [| done].
  unfold is_decimal in Hc. apply andb_true_iff in Hc as [H1 H2].
  apply Z.leb_le in H1. unfold digit_value. lia.
Qed.

(** [int] accepts exactly the fields made of decimal digits. *)
Lemma int_decimal (s : str) :
  decimal_field s -> ∃ d, int s = Some d ∧ 0 ≤ d.
Proof.
  intros [Hne Hall]. destruct s as [|c s]; [done |].
  assert (forallb is_decimal (c :: s) = true) as Hb.
  { apply forallb_forall. intros x Hx. apply list_elem_of_In in Hx.
    rewrite Forall_forall in Hall. by apply Hall. }
  unfold int. rewrite Hb. eexists. split; [done |].
  by apply digits_value_nonneg.
Qed.

Lemma int_Some_decimal (s : str) (d : Z) : int s = Some d -> decimal_field s.
Proof.
  unfold int. destruct s as [|c s]; [done |].
  destruct (forallb is_decimal (c :: s)) eqn:Hb; [| done].
  intros _. split; [done |].
  rewrite Forall_forall. intros x Hx. apply list_elem_of_In in Hx.
  rewrite forallb_forall in Hb. by apply Hb.
Qed.

End Strings.

(** ** The loop of [load_scripts], line by line *)

Section Lines.

Implicit Types (scripts : table) (s_name temp line : str) (line_n : nat).

Lemma ignorable_false temp :
  (len temp =? 0) || char_in (nth 0 temp Ascii.zero) (py "#%") = false
  <-> temp ≠ [] ∧ head temp ≠ Some (chr 35) ∧ head temp ≠ Some (chr 37).
Proof.
  destruct temp as [|c temp]; simpl.
  - split; [done | intros [? _]; done].
  - unfold len. simpl length.
    replace (Z.of_nat (S (length temp)) =? 0) with false
      by (symmetry; apply Z.eqb_neq; lia).
    simpl. rewrite !orb_false_iff. rewrite !eqb_char_false.
    change (chr 35) with "#"%char. change (chr 37) with "%"%char. split.
    + intros (H1 & H2 & _). repeat split; [done | |]; congruence.
    + intros (_ & H1 & H2). repeat split; congruence.
Qed.

(** The test on the split indexes lets a line pass exactly when the four
    lookups succeed in strictly increasing order and the first comma is
    not the first character. *)
Lemma split_guard_false temp :
  (first_comma temp <=? 0) || (second_comma temp <=? 0) || (first_quote temp <=? 0)
  || (second_quote temp <=? 0) || (second_comma temp <=? first_comma temp)
  || (first_quote temp <=? second_comma temp)
  || (second_quote temp <=? first_quote temp) = false
  <-> boundaries_ok temp ∧ 0 < first_comma temp.
Proof.
  unfold boundaries_ok, found. rewrite !orb_false_iff, !Z.leb_gt. lia.
Qed.

(** A state with no script open. *)
Lemma load_line_closed scripts line_n line :
  load_line (scripts, []) line_n line =
  let temp := stripped line in
  if _contains_prefix tag temp then
    if len temp <? 4 then ReturnNone (Some (NoName line_n))
    else if bool_decide (slice_from temp 3 ∈ dom scripts)
         then ReturnNone (Some (DuplicateName (slice_from temp 3)))
         else Continue (<[slice_from temp 3 := []]> scripts, slice_from temp 3)
  else Continue (scripts, []).
Proof. reflexivity. Qed.

(** A state with the script [s_name] open. *)
Lemma load_line_open scripts s_name line_n line :
  s_name ≠ [] ->
  load_line (scripts, s_name) line_n line =
  let temp := stripped line in
  if (len temp =? 0) || char_in (nth 0 temp Ascii.zero) (py "#%")
  then Continue (scripts, s_name)
  else if _contains_prefix tag temp then Continue (scripts, [])
  else if (first_comma temp <=? 0) || (second_comma temp <=? 0) || (first_quote temp <=? 0)
          || (second_quote temp <=? 0) || (second_comma temp <=? first_comma temp)
          || (first_quote temp <=? second_comma temp)
          || (second_quote temp <=? first_quote temp)
  then ReturnNone (Some (InvalidSplit (first_comma temp) (second_comma temp)
                                      (first_quote temp) (second_quote temp) temp))
  else if negb (isdigit (delay_field temp))
  then ReturnNone (Some (DelayNotInteger (delay_field temp)))
  else match scripts !! s_name with
       | None => Raise KeyError
       | Some cmds =>
           match int (delay_field temp) with
           | None => Raise ValueError
           | Some delay =>
               Continue (<[s_name := cmds ++ [(delay, command_field temp, param_field temp)]]> scripts,
                         s_name)
           end
       end.
Proof. intros H. destruct s_name; [done | reflexivity]. Qed.

Lemma slice_from_tag (name : str) : slice_from (tag ++ name) 3 = name.
Proof.
  unfold slice_from, clamp, len. rewrite length_app.
  change (3 <? 0) with false. cbv iota.
  replace (Z.to_nat (Z.min 3 (Z.of_nat (length tag + length name)))) with 3%nat
    by (change (length tag) with 3%nat; lia).
  done.
Qed.

Lemma tag_prefix_decompose temp :
  tag `prefix_of` temp -> ∃ name, temp = tag ++ name.
Proof. intros [name ->]. by exists name. Qed.

(** Outside a script, a line without the tag changes nothing. *)
Lemma load_line_skip scripts line_n line :
  ¬ tag `prefix_of` stripped line ->
  load_line (scripts, []) line_n line = Continue (scripts, []).
Proof.
  intros H. rewrite load_line_closed. cbv zeta.
  destruct (_contains_prefix tag (stripped line)) eqn:E; [| done].
  apply contains_prefix_spec in E; done.
Qed.

(** Outside a script, a tag with a new name opens a script. *)
Lemma load_line_opens scripts line_n line name :
  stripped line = tag ++ name -> name ≠ [] -> scripts !! name = None ->
  load_line (scripts, []) line_n line = Continue (<[name := []]> scripts, name).
Proof.
  intros Ht Hne Hfresh. rewrite load_line_closed. cbv zeta. rewrite Ht.
  assert (_contains_prefix tag (tag ++ name) = true) as ->.
  { apply contains_prefix_spec; [done | by apply prefix_app_r]. }
  assert ((len (tag ++ name) <? 4) = false) as ->.
  { apply Z.ltb_ge. unfold len. rewrite length_app. simpl.
    destruct name; [done | simpl; lia]. }
  rewrite slice_from_tag. rewrite bool_decide_eq_false_2; [done |].
  by apply not_elem_of_dom.
Qed.

(** Inside a script, a line that is a command. *)
Lemma load_line_command scripts s_name line_n line :
  s_name ≠ [] -> body_line (stripped line) ->
  load_line (scripts, s_name) line_n line =
  let temp := stripped line in
  if bool_decide (boundaries_ok temp ∧ 0 < first_comma temp) then
    if isdigit (delay_field temp) then
      match scripts !! s_name with
      | None => Raise KeyError
      | Some cmds =>
          match int (delay_field temp) with
          | None => Raise ValueError
          | Some delay =>
              Continue (<[s_name := cmds ++ [(delay, command_field temp, param_field temp)]]> scripts,
                        s_name)
          end
      end
    else ReturnNone (Some (DelayNotInteger (delay_field temp)))
  else ReturnNone (Some (InvalidSplit (first_comma temp) (second_comma temp)
                                      (first_quote temp) (second_quote temp) temp)).
Proof.
  intros Hne (Hnil & Hhash & Hpct & Htag).
  rewrite load_line_open by done. cbv zeta.
  assert ((len (stripped line) =? 0)
          || char_in (nth 0 (stripped line) Ascii.zero) (py "#%") = false) as ->.
  { by apply ignorable_false. }
  destruct (_contains_prefix tag (stripped line)) eqn:E.
  { apply contains_prefix_spec in E; done. }
  case_bool_decide as Hb.
  - apply split_guard_false in Hb. rewrite Hb.
    by destruct (isdigit (delay_field (stripped line))).
  - destruct (_ || _) eqn:Hg; [done |].
    apply split_guard_false in Hg. done.
Qed.

(** A field of decimal digits is not empty, so the comma that ends it is
    not the first character. *)
Lemma decimal_delay_comma temp :
  found (first_comma temp) -> decimal_field (delay_field temp) ->
  0 < first_comma temp.
Proof.
  unfold found. intros Hf [Hne _].
  destruct (decide (first_comma temp = 0)) as [E | E]; [| lia].
  exfalso. apply Hne. unfold delay_field. rewrite E. apply slice_to_zero.
Qed.

(** What a line that does not stop the loop does to the state. *)
Lemma load_line_continue scripts s_name line_n line st' :
  load_line (scripts, s_name) line_n line = Continue st' ->
  st' = (scripts, s_name)
  ∨ (s_name = [] ∧ ∃ name, scripts !! name = None ∧ st' = (<[name := []]> scripts, name))
  ∨ (s_name ≠ [] ∧ st' = (scripts, []))
  ∨ (s_name ≠ [] ∧ ∃ cmds c, scripts !! s_name = Some cmds
                             ∧ st' = (<[s_name := cmds ++ [c]]> scripts, s_name)).
Proof.
  destruct s_name as [|a s_name].
  - rewrite load_line_closed. cbv zeta.
    destruct (_contains_prefix _ _); [| intros [= <-]; by left].
    destruct (_ <? _); [done |].
    case_bool_decide as Hd; [done |].
    intros [= <-]. right. left. split; [done |].
    eexists. split; [| done]. by apply not_elem_of_dom.
  - rewrite load_line_open by done. cbv zeta.
    destruct (_ || _); [intros [= <-]; by left |].
    destruct (_contains_prefix _ _); [intros [= <-]; right; right; by left |].
    destruct (_ || _); [done |].
    destruct (negb _); [done |].
    destruct (scripts !! (a :: s_name)) as [cmds|] eqn:Hl; [| done].
    destruct (int _); [| done].
    intros [= <-]. right. right. right. split; [done |]. by eexists _, _.
Qed.

End Lines.

(** ** The whole loop *)

Section Loop.

Implicit Types (scripts : table) (s_name temp line : str) (line_n : nat)
  (st : state) (lines : list str).

Lemma kept_in_refl scripts : kept_in scripts scripts.
Proof. intros name cmds H. exists []. by rewrite app_nil_r. Qed.

Lemma kept_in_trans (t1 t2 t3 : table) : kept_in t1 t2 -> kept_in t2 t3 -> kept_in t1 t3.
Proof.
  intros H12 H23 name cmds H. destruct (H12 _ _ H) as [m1 H1].
  destruct (H23 _ _ H1) as [m2 H2]. exists (m1 ++ m2). by rewrite app_assoc.
Qed.

Lemma load_line_kept st line_n line st' :
  load_line st line_n line = Continue st' -> kept_in st.1 st'.1.
Proof.
  destruct st as [scripts s_name]. intros H.
  apply load_line_continue in H
    as [-> | [(_ & name & Hf & ->) | [(_ & ->) | (_ & cmds & c & Hl & ->)]]]; simpl.
  - apply kept_in_refl.
  - intros n cs Hn. exists []. rewrite app_nil_r.
    rewrite lookup_insert_ne; [done | congruence].
  - apply kept_in_refl.
  - intros n cs Hn. destruct (decide (s_name = n)) as [-> | Hne].
    + rewrite lookup_insert_eq. exists [c]. congruence.
    + exists []. rewrite app_nil_r. by rewrite lookup_insert_ne.
Qed.

Lemma load_line_open_in_table st line_n line st' :
  open_in_table st -> load_line st line_n line = Continue st' -> open_in_table st'.
Proof.
  destruct st as [scripts s_name]. intros Hwf H.
  apply load_line_continue in H
    as [-> | [(_ & name & Hf & ->) | [(_ & ->) | (_ & cmds & c & Hl & ->)]]];
    unfold open_in_table in *; simpl in *; intros Hne.
  - by apply Hwf.
  - rewrite lookup_insert_eq. by eexists.
  - done.
  - rewrite lookup_insert_eq. by eexists.
Qed.

Lemma load_loop_app st line_n lines1 lines2 :
  load_loop st line_n (lines1 ++ lines2) =
  match load_loop st line_n lines1 with
  | Continue st' => load_loop st' (line_n + length lines1) lines2
  | ReturnNone d => ReturnNone d
  | Raise e => Raise e
  end.
Proof.
  revert st line_n. induction lines1 as [|l lines1 IH]; intros st line_n; simpl.
  - by rewrite Nat.add_0_r.
  - destruct (load_line st line_n l); [| done | done].
    rewrite IH. by replace (S line_n + length lines1)%nat with (line_n + S (length lines1))%nat by lia.
Qed.

Lemma load_loop_kept st line_n lines st' :
  load_loop st line_n lines = Continue st' -> kept_in st.1 st'.1.
Proof.
  revert st line_n. induction lines as [|l lines IH]; intros st line_n; simpl.
  - intros [= <-]. apply kept_in_refl.
  - destruct (load_line st line_n l) as [st1| |] eqn:E; [| done | done].
    intros H. eapply kept_in_trans; [by eapply load_line_kept | by eapply IH].
Qed.

Lemma load_loop_open_in_table st line_n lines st' :
  open_in_table st -> load_loop st line_n lines = Continue st' -> open_in_table st'.
Proof.
  revert st line_n. induction lines as [|l lines IH]; intros st line_n Hwf; simpl.
  - by intros [= <-].
  - destruct (load_line st line_n l) as [st1| |] eqn:E; [| done | done].
    apply IH. by eapply load_line_open_in_table.
Qed.

Lemma initial_open_in_table : open_in_table initial.
Proof. intros H. done. Qed.

(** A loop that stops does so at one line, after reading the lines before
    it; the answer of the loop is the answer of that line. *)
Lemma load_loop_stopped st line_n lines :
  stopped (load_loop st line_n lines) ->
  ∃ lines1 line lines2 st',
    lines = lines1 ++ line :: lines2
    ∧ load_loop st line_n lines1 = Continue st'
    ∧ stopped (load_line st' (line_n + length lines1) line)
    ∧ load_loop st line_n lines = load_line st' (line_n + length lines1) line.
Proof.
  revert st line_n. induction lines as [|l lines IH]; intros st line_n; simpl; [done |].
  destruct (load_line st line_n l) as [st1| d | e] eqn:E.
  - intros H. destruct (IH _ _ H) as (l1 & x & l2 & st' & -> & H1 & H2 & H3).
    exists (l :: l1), x, l2, st'. simpl. rewrite E.
    replace (line_n + S (length l1))%nat with (S line_n + length l1)%nat by lia.
    done.
  - intros _. exists [], l, lines, st. simpl. rewrite Nat.add_0_r, E. done.
  - intros _. exists [], l, lines, st. simpl. rewrite Nat.add_0_r, E. done.
Qed.

(** Each of the four parse errors stops the loop. *)
Lemma parse_error_stops st line_n line :
  parse_error st (stripped line) -> stopped (load_line st line_n line).
Proof.
  intros H. remember (stripped line) as temp eqn:Ht.
  destruct H as [scripts | scripts name Hne Hin | scripts s_name temp Hne Hb Hbad
                | scripts s_name temp Hne Hb Hok Hdelay].
  - rewrite load_line_closed. cbv zeta. rewrite <- Ht. done.
  - rewrite load_line_closed. cbv zeta. rewrite <- Ht.
    assert (_contains_prefix tag (tag ++ name) = true) as ->.
    { apply contains_prefix_spec; [done | by apply prefix_app_r]. }
    destruct (_ <? _); [done |]. rewrite slice_from_tag.
    rewrite bool_decide_eq_true_2; [done | by apply elem_of_dom].
  - subst temp. rewrite load_line_command by done. cbv zeta.
    rewrite bool_decide_eq_false_2; [done | tauto].
  - subst temp. rewrite load_line_command by done. cbv zeta.
    case_bool_decide; [| done].
    destruct (isdigit _); [| done].
    destruct (scripts !! s_name); [| done].
    destruct (int _) as [d|] eqn:Hi; [| done].
    apply int_Some_decimal in Hi. done.
Qed.

End Loop.

(** ** The script parser *)

Section Parser.

Implicit Types (scripts : table) (s_name temp line : str) (line_n : nat)
  (st : state) (lines : list str).

Lemma stopped_no_table lines1 line lines2 st :
  load_loop initial 1 lines1 = Continue st ->
  stopped (load_line st (1 + length lines1) line) ->
  returned_table (load_lines (lines1 ++ line :: lines2)) = None.
Proof.
  intros H1 Hs. unfold load_lines. rewrite load_loop_app, H1. cbn [load_loop].
  destruct (load_line st (1 + length lines1) line); done.
Qed.

(** C1. While a script is open, a body line (stripped, not empty, not
    starting with [#], [%] or [---]) is split at the first comma, the next
    comma, the first quote after it and the next quote. When the four
    lookups succeed in strictly increasing order and the delay field is
    made of decimal digits, the triple (int of the delay field, command
    field, parameter field) is appended to the commands of the open
    script; in every other case the line stops the loop and the load
    returns no table, whatever follows. A delay field that is empty counts
    as not made of digits. *)
Theorem body_line_appends_or_fails (before : list str) scripts s_name line :
  let temp := stripped line in
  load_loop initial 1 before = Continue (scripts, s_name) ->
  s_name ≠ [] -> body_line temp ->
  (boundaries_ok temp ∧ decimal_field (delay_field temp) ->
   ∃ cmds delay,
     scripts !! s_name = Some cmds
     ∧ int (delay_field temp) = Some delay ∧ 0 ≤ delay
     ∧ load_line (scripts, s_name) (1 + length before) line =
       Continue (<[s_name := cmds ++ [(delay, command_field temp, param_field temp)]]> scripts,
                 s_name))
  ∧ (¬ (boundaries_ok temp ∧ decimal_field (delay_field temp)) ->
     stopped (load_line (scripts, s_name) (1 + length before) line)
     ∧ ∀ after, returned_table (load_lines (before ++ line :: after)) = None).
Proof.
  intros temp Hb Hne Hbody. subst temp.
  pose proof (load_loop_open_in_table _ _ _ _ initial_open_in_table Hb Hne) as Hin.
  change (is_Some (scripts !! s_name)) in Hin. destruct Hin as [cmds Hcmds]. split.
  - intros [Hok Hdec].
    assert (0 < first_comma (stripped line)) as Hpos.
    { apply decimal_delay_comma; [apply Hok | done]. }
    destruct (int_decimal _ Hdec) as (d & Hd & Hd0).
    exists cmds, d. repeat split; [done.. |].
    rewrite load_line_command by done. cbv zeta. rewrite Hcmds.
    rewrite bool_decide_eq_true_2 by done.
    by rewrite (decimal_is_digit _ Hdec), Hd.
  - intros Hnot.
    assert (stopped (load_line (scripts, s_name) (1 + length before) line)) as Hstop.
    { rewrite load_line_command by done. cbv zeta. rewrite Hcmds.
      case_bool_decide as Hok; [| done].
      destruct (isdigit _); [| done].
      destruct (int _) as [d|] eqn:Hi; [| done].
      apply int_Some_decimal in Hi. tauto. }
    split; [done |].
    intros after. by eapply stopped_no_table.
Qed.

Lemma parse_command_Some temp cmd :
  parse_command temp = Some cmd ->
  boundaries_ok temp ∧ 0 < first_comma temp ∧ isdigit (delay_field temp) = true
  ∧ ∃ delay, int (delay_field temp) = Some delay
             ∧ cmd = (delay, command_field temp, param_field temp).
Proof.
  unfold parse_command. case_bool_decide as Hok; [| done].
  destruct (int (delay_field temp)) as [d|] eqn:Hi; [| done].
  simpl. intros [= <-]. pose proof (int_Some_decimal _ _ Hi) as Hdec.
  split; [done |]. split; [apply decimal_delay_comma; [apply Hok | done] |].
  split; [by apply decimal_is_digit |]. by exists d.
Qed.

Lemma drop_tag (name : str) : drop 3 (tag ++ name) = name.
Proof. reflexivity. Qed.

Lemma len_tag_name (name : str) : (len (tag ++ name) <? 4) = bool_decide (name = []).
Proof.
  destruct name as [|c name].
  - reflexivity.
  - rewrite bool_decide_eq_false_2 by done. apply Z.ltb_ge.
    unfold len. rewrite length_app. cbn [length tag py list_ascii_of_string]. lia.
Qed.

(** The loop follows the scripts of the text: from the state that holds
    the scripts met so far it ends with the table of the scripts of the
    text, or stops where the text has no scripts. *)
Lemma load_loop_scripts_from lines closed cur line_n :
  NoDup closed.*1 ->
  (∀ name cmds, cur = Some (name, cmds) -> name ≠ [] ∧ name ∉ closed.*1) ->
  match scripts_from closed cur lines with
  | Some l =>
      NoDup l.*1
      ∧ ∃ s_name, load_loop (state_of closed cur) line_n lines
                  = Continue (list_to_map l, s_name)
  | None => stopped (load_loop (state_of closed cur) line_n lines)
  end.
Proof.
  revert closed cur line_n.
  induction lines as [|line lines IH]; intros closed cur line_n Hnd Hcur.
  - cbn [scripts_from load_loop]. destruct cur as [[name cmds]|]; cbn [state_of].
    + destruct (Hcur name cmds eq_refl) as [_ Hnew]. split.
      * rewrite fmap_app. apply NoDup_app. split; [done |]. split; [| apply NoDup_singleton].
        intros x Hx Hx'. cbn in Hx'. apply list_elem_of_singleton in Hx'. by subst.
      * exists name. by rewrite list_to_map_snoc.
    + split; [done |]. by exists [].
  - cbn [scripts_from load_loop]. destruct cur as [[name cmds]|]; cbn [state_of].
    + destruct (Hcur name cmds eq_refl) as [Hne Hnew].
      case_bool_decide as Hig.
      * rewrite load_line_open by done. cbv zeta.
        destruct ((len (stripped line) =? 0) || _) eqn:Hi.
        -- apply (IH closed (Some (name, cmds))); done.
        -- apply ignorable_false in Hi. exfalso.
           destruct Hi as (? & ? & ?). by destruct Hig as [? | [? | ?]].
      * assert (stripped line ≠ [] ∧ head (stripped line) ≠ Some (chr 35)
                ∧ head (stripped line) ≠ Some (chr 37)) as Hbody by tauto.
        case_bool_decide as Hp.
        -- rewrite load_line_open by done. cbv zeta.
           rewrite (proj2 (ignorable_false _) Hbody).
           rewrite (proj2 (contains_prefix_spec tag _ tag_not_empty) Hp).
           rewrite <- (list_to_map_snoc closed name cmds) by done.
           apply (IH (closed ++ [(name, cmds)]) None).
           ++ rewrite fmap_app. apply NoDup_app. split; [done |].
              split; [| apply NoDup_singleton].
              intros x Hx Hx'. cbn in Hx'. apply list_elem_of_singleton in Hx'. by subst.
           ++ done.
        -- rewrite load_line_command; [| done | by destruct Hbody as (? & ? & ?)].
           cbv zeta. rewrite lookup_insert_eq.
           destruct (parse_command (stripped line)) as [cmd|] eqn:Hc; cbn [mbind option_bind].
           ++ apply parse_command_Some in Hc as (Hok & Hpos & Hd & delay & Hi & ->).
              rewrite bool_decide_eq_true_2 by done. rewrite Hd, Hi, insert_insert_eq.
              apply (IH closed (Some (name, cmds ++ [(delay, _, _)]))); [done |].
              by intros ? ? [= <- <-].
           ++ assert (int (delay_field (stripped line)) = None
                      ∨ ¬ boundaries_ok (stripped line)) as Hcase.
              { unfold parse_command in Hc. case_bool_decide; [| by right].
                left. by destruct (int _). }
              destruct (bool_decide (boundaries_ok _ ∧ _)) eqn:Hb; [| done].
              apply bool_decide_eq_true in Hb as [Hok _].
              destruct Hcase as [Hi | ?]; [| done]. rewrite Hi.
              by destruct (isdigit _).
    + rewrite load_line_closed. cbv zeta. case_bool_decide as Hp.
      * rewrite (proj2 (contains_prefix_spec tag _ tag_not_empty) Hp).
        destruct (tag_prefix_decompose _ Hp) as [name Ht]. rewrite Ht.
        rewrite drop_tag, slice_from_tag, len_tag_name.
        case_bool_decide as Hbad.
        -- case_bool_decide as He; [done |].
           destruct Hbad as [? | Hin]; [done |].
           rewrite bool_decide_eq_true_2; [done |].
           rewrite dom_list_to_map_L. by apply elem_of_list_to_set.
        -- rewrite bool_decide_eq_false_2 by tauto.
           rewrite bool_decide_eq_false_2.
           ++ apply (IH closed (Some (name, []))); [done |].
              intros ? ? [= <- <-]. tauto.
           ++ rewrite dom_list_to_map_L, elem_of_list_to_set. tauto.
      * destruct (_contains_prefix tag (stripped line)) eqn:Hc.
        -- apply contains_prefix_spec in Hc; [done | apply tag_not_empty].
        -- by apply (IH closed None).
Qed.

(** C3. The load gives either the table of the whole text or no table.
    When the text has scripts ([scripts_of], the reading of the format
    line by line), their names are distinct and the load gives the table
    that holds exactly these scripts, each under its name with exactly
    its commands; when the text has none, the load gives no table. When
    the load gives a table, every line was read and every script met on
    the way is in the table, with the commands read for it. When it gives
    none, the loop stopped at one line. Whenever a line is one of the four
    parse errors in the state the lines before it lead to, no table is
    returned, whatever was read before. *)
Theorem load_scripts_all_or_none (text : str) :
  let lines := readlines text in
  match load_scripts (Some text) with
  | Continue t =>
      ∀ lines1 lines2, lines = lines1 ++ lines2 ->
        ∃ st, load_loop initial 1 lines1 = Continue st ∧ kept_in st.1 t
  | failure =>
      returned_table failure = None
      ∧ ∃ lines1 line lines2 st,
          lines = lines1 ++ line :: lines2
          ∧ load_loop initial 1 lines1 = Continue st
          ∧ stopped (load_line st (1 + length lines1) line)
  end
  ∧ (∀ lines1 line lines2 st,
       lines = lines1 ++ line :: lines2 ->
       load_loop initial 1 lines1 = Continue st ->
       parse_error st (stripped line) ->
       returned_table (load_scripts (Some text)) = None)
  ∧ match scripts_of lines with
    | Some l =>
        NoDup l.*1
        ∧ ∃ t, load_scripts (Some text) = Continue t
               ∧ ∀ name cmds, t !! name = Some cmds <-> (name, cmds) ∈ l
    | None => returned_table (load_scripts (Some text)) = None
    end.
Proof.
  intros lines. split; [| split].
  - unfold load_scripts, load_lines. fold lines.
    destruct (load_loop initial 1 lines) as [[t s]| d | e] eqn:E.
    + intros l1 l2 Hl. rewrite Hl, load_loop_app in E.
      destruct (load_loop initial 1 l1) as [st| |] eqn:E1; [| done | done].
      exists st. split; [done |]. by apply load_loop_kept in E.
    + split; [done |].
      destruct (load_loop_stopped initial 1 lines) as (l1 & x & l2 & st & Hl & H1 & H2 & _).
      { by rewrite E. }
      by exists l1, x, l2, st.
    + split; [done |].
      destruct (load_loop_stopped initial 1 lines) as (l1 & x & l2 & st & Hl & H1 & H2 & _).
      { by rewrite E. }
      by exists l1, x, l2, st.
  - intros l1 x l2 st Hl H1 Herr.
    change (returned_table (load_lines lines) = None). rewrite Hl.
    eapply stopped_no_table; [done |]. by apply parse_error_stops.
  - unfold load_scripts, load_lines, scripts_of. fold lines.
    pose proof (load_loop_scripts_from lines [] None 1 NoDup_nil_2) as H.
    cbn [state_of] in H. change (list_to_map [] : table) with (∅ : table) in H.
    change (∅ : table, [] : str) with initial in H.
    destruct (scripts_from [] None lines) as [l|].
    + destruct H as [Hnd [s_name ->]]; [done |]. split; [done |].
      exists (list_to_map l). split; [done |]. intros name cmds.
      symmetry. by apply elem_of_list_to_map.
    + specialize (H ltac:(done)).
      by destruct (load_loop initial 1 lines).
Qed.

(** Reading the lines of a script that stays open appends their commands. *)
Lemma body_commands_run (body : list str) scripts name cmds0 cmds line_n :
  name ≠ [] -> scripts !! name = Some cmds0 ->
  body_commands body = Some cmds ->
  load_loop (scripts, name) line_n body = Continue (<[name := cmds0 ++ cmds]> scripts, name).
Proof.
  intros Hne. revert scripts cmds0 cmds line_n.
  induction body as [|line body IH]; intros scripts cmds0 cmds line_n Hl; simpl.
  - intros [= <-]. rewrite app_nil_r, insert_id; done.
  - case_bool_decide as Hign.
    + intros Hb. rewrite load_line_open by done. cbv zeta.
      assert ((len (stripped line) =? 0)
              || char_in (nth 0 (stripped line) Ascii.zero) (py "#%") = true) as ->.
      { apply not_false_iff_true. intros Hf. apply ignorable_false in Hf. tauto. }
      by apply IH.
    + case_bool_decide as Htag; [done |].
      destruct (parse_command (stripped line)) as [cmd|] eqn:Hp; [| done].
      destruct (body_commands body) as [cmds'|] eqn:Hb; [| done].
      simpl. intros [= <-].
      apply parse_command_Some in Hp as (Hok & Hpos & Hdig & d & Hd & ->).
      rewrite load_line_command; [| done | unfold body_line; tauto].
      cbv zeta. rewrite bool_decide_eq_true_2 by done. rewrite Hdig, Hl, Hd.
      rewrite (IH _ (cmds0 ++ [(d, command_field (stripped line), param_field (stripped line))]) cmds');
        [| by rewrite lookup_insert_eq | done].
      rewrite insert_insert_eq. by rewrite <- app_assoc.
Qed.

(** C9. A text that ends while a script is open loads: when the lines
    before the opening tag are read with no script left open, the opening
    line is a tag with a new name, and the lines after it are comments,
    empty lines and commands only (no closing tag), the load returns the
    table with the open script in it, holding exactly the commands read
    so far. *)
Theorem unterminated_script_is_kept (before : list str) (opening : str) (body : list str)
    scripts name cmds :
  load_loop initial 1 before = Continue (scripts, []) ->
  stripped opening = tag ++ name -> name ≠ [] -> scripts !! name = None ->
  body_commands body = Some cmds ->
  load_lines (before ++ opening :: body) = Continue (<[name := cmds]> scripts)
  ∧ load_loop initial 1 (before ++ opening :: body) = Continue (<[name := cmds]> scripts, name).
Proof.
  intros Hb Ho Hne Hfresh Hbody.
  assert (load_loop initial 1 (before ++ opening :: body)
          = Continue (<[name := cmds]> scripts, name)) as H.
  { rewrite load_loop_app, Hb. simpl.
    rewrite (load_line_opens _ _ _ name) by done.
    rewrite (body_commands_run body _ name [] cmds); [| done | by rewrite lookup_insert_eq | done].
    by rewrite insert_insert_eq. }
  split; [| done]. unfold load_lines. by rewrite H.
Qed.

Lemma load_line_without_line_n st line (n m : nat) :
  without_line_n (load_line st n line) = without_line_n (load_line st m line).
Proof.
  destruct st as [scripts [|a s_name]].
  - rewrite !load_line_closed. cbv zeta.
    destruct (_contains_prefix _ _); [| done].
    destruct (_ <? _); done.
  - by rewrite !load_line_open.
Qed.

Lemma without_line_n_continue {A : Type} (r1 r2 : outcome diag A) (a : A) :
  without_line_n r1 = without_line_n r2 -> r1 = Continue a -> r2 = Continue a.
Proof.
  intros H ->. simpl in H. destruct r2 as [b | [[]|] | e]; simpl in H; congruence.
Qed.

(** The line numbers only show in the message about a missing name. *)
Lemma load_loop_without_line_n st lines (n m : nat) :
  without_line_n (load_loop st n lines) = without_line_n (load_loop st m lines).
Proof.
  revert st n m. induction lines as [|l lines IH]; intros st n m; simpl; [done |].
  pose proof (load_line_without_line_n st l n m) as H.
  destruct (load_line st n l) as [st1 | d | e] eqn:E.
  - rewrite (without_line_n_continue _ _ _ H eq_refl). apply IH.
  - destruct (load_line st m l) as [st2 | d2 | e2] eqn:E2; simpl in *.
    + destruct d as [[]|]; done.
    + done.
    + destruct d as [[]|]; done.
  - destruct (load_line st m l) as [st2 | d2 | e2] eqn:E2; simpl in *.
    + done.
    + destruct d2 as [[]|]; done.
    + done.
Qed.

Lemma load_loop_skip scripts line_n (junk : list str) :
  Forall (fun line => ¬ tag `prefix_of` stripped line) junk ->
  load_loop (scripts, []) line_n junk = Continue (scripts, []).
Proof.
  revert line_n. induction junk as [|l junk IH]; intros line_n Hj; simpl; [done |].
  inversion Hj as [|? ? Hl Hrest]; subst.
  rewrite load_line_skip by done. by apply IH.
Qed.

Lemma without_line_n_table (r : outcome diag state) :
  without_line_n (match r with
                  | Continue (scripts, _) => Continue scripts
                  | ReturnNone d => ReturnNone d
                  | Raise e => Raise e
                  end : outcome diag table)
  = match without_line_n r with
    | Continue (scripts, _) => Continue scripts
    | ReturnNone d => ReturnNone d
    | Raise e => Raise e
    end.
Proof. destruct r as [[t s] | [[]|] | e]; done. Qed.

Lemma returned_table_without_line_n (r : outcome diag table) :
  returned_table (without_line_n r) = returned_table r.
Proof. destruct r as [t | [[]|] | e]; done. Qed.

(** C10. While no script is open, a line that does not start with [---]
    once stripped is skipped: the state is unchanged and nothing stops.
    Lines of that kind put in a text at a place where no script is open
    change nothing of the result: the same table, or the same failure,
    up to the line number in the message of a tag without name. *)
Theorem text_between_scripts_is_skipped :
  (∀ scripts line_n line,
     ¬ tag `prefix_of` stripped line ->
     load_line (scripts, []) line_n line = Continue (scripts, []))
  ∧ (∀ (before junk after : list str) scripts,
       load_loop initial 1 before = Continue (scripts, []) ->
       Forall (fun line => ¬ tag `prefix_of` stripped line) junk ->
       without_line_n (load_lines (before ++ junk ++ after))
       = without_line_n (load_lines (before ++ after))
       ∧ returned_table (load_lines (before ++ junk ++ after))
         = returned_table (load_lines (before ++ after))).
Proof.
  split; [apply load_line_skip |].
  intros before junk after scripts Hb Hj.
  assert (without_line_n (load_lines (before ++ junk ++ after))
          = without_line_n (load_lines (before ++ after))) as H.
  { unfold load_lines. rewrite !without_line_n_table.
    rewrite !(load_loop_app _ _ before), Hb. cbv beta iota.
    rewrite load_loop_app, (load_loop_skip _ _ _ Hj). cbv beta iota.
    by rewrite (load_loop_without_line_n _ after _ (1 + length before)). }
  split; [done |].
  rewrite <- (returned_table_without_line_n (load_lines (before ++ junk ++ after))).
  rewrite H. apply returned_table_without_line_n.
Qed.

End Parser.

(** ** The whitespace stripping *)

Section Stripping.

Implicit Types (line rest before : str) (found : bool).

Lemma strip_fold_from mark_char rm_chars line rest before output found :
  line = before ++ rest ->
  fst (fold_left (strip_step mark_char rm_chars line)
                 (seq (length before) (length rest)) (output, found))
  = output ++ strip_loop_from mark_char rm_chars (last before) found rest.
Proof.
  revert before output found.
  induction rest as [|c rest IH]; intros before output found Hline.
  - simpl. by rewrite app_nil_r.
  - cbn [length seq fold_left].
    assert (nth (length before) line Ascii.zero = c) as Hc.
    { rewrite Hline. by rewrite nth_middle. }
    assert (line = (before ++ [c]) ++ rest) as Hline'.
    { by rewrite <- app_assoc. }
    specialize (IH (before ++ [c])).
    rewrite length_app, Nat.add_1_r, last_snoc in IH.
    unfold strip_step at 2. rewrite Hc. cbn [strip_loop_from].
    assert ((if Ascii.eqb c mark_char
             then if negb (length before =? 0)%nat
                     && negb (Ascii.eqb (nth (length before - 1) line Ascii.zero) backslash)
                  then negb found else found
             else found)
            = (if Ascii.eqb c mark_char
               then match last before with
                    | Some p => if negb (Ascii.eqb p backslash) then negb found else found
                    | None => found
                    end
               else found)) as ->.
    { destruct (Ascii.eqb c mark_char); [| done].
      destruct before as [|b before _] using rev_ind; [done |].
      rewrite last_snoc, length_app, Nat.add_1_r.
      replace (S (length before) - 1)%nat with (length before) by lia.
      rewrite Hline, <- !app_assoc. simpl. rewrite nth_middle.
      by destruct (length before). }
    destruct (_ || _).
    + rewrite (IH _ _ Hline'). by rewrite <- app_assoc.
    + by rewrite (IH _ _ Hline').
Qed.

(** [_remove_obsolete_characters] is its loop over the characters. *)
Lemma remove_obsolete_characters_loop mark_char rm_chars line :
  _remove_obsolete_characters mark_char rm_chars line
  = strip_loop_from mark_char rm_chars None false line.
Proof.
  unfold _remove_obsolete_characters.
  exact (strip_fold_from mark_char rm_chars line line [] [] false eq_refl).
Qed.

Lemma xorb_toggle (found toggles : bool) :
  xorb found toggles = if toggles then negb found else found.
Proof. by destruct found, toggles. Qed.

(** After the first character, the loop is the stripping of the
    specification. *)
Lemma strip_loop_from_spec (p : ascii) found rest :
  strip_loop_from dquote whitespace (Some p) found rest
  = strip_spec_from (Some p) found rest.
Proof.
  revert p found. induction rest as [|c rest IH]; intros p found; [done |].
  cbn [strip_loop_from strip_spec_from]. rewrite xorb_toggle, !IH.
  assert (bool_decide (Some p = Some backslash) = Ascii.eqb p backslash) as ->.
  { destruct (Ascii.eqb p backslash) eqn:E.
    - apply eqb_char_true in E. subst. by apply bool_decide_eq_true_2.
    - apply eqb_char_false in E. apply bool_decide_eq_false_2. congruence. }
  destruct (Ascii.eqb c dquote) eqn:Ec.
  - apply eqb_char_true in Ec. subst c.
    change (char_in dquote whitespace) with false.
    cbn [andb negb orb].
    destruct (negb (Ascii.eqb p backslash)); destruct found; done.
  - cbn [andb]. destruct found, (char_in c whitespace); done.
Qed.

(** On a line that does not start with a quote, the code strips as the
    specification says. *)
Lemma stripped_is_strip_spec line :
  head line ≠ Some dquote -> stripped line = strip_spec line.
Proof.
  intros Hh. unfold stripped, strip_spec. rewrite remove_obsolete_characters_loop.
  destruct line as [|c line]; [done |].
  cbn [strip_loop_from strip_spec_from].
  assert (Ascii.eqb c dquote = false) as ->.
  { apply eqb_char_false. simpl in Hh. congruence. }
  cbn [andb xorb orb negb]. rewrite !strip_loop_from_spec.
  by destruct (char_in c whitespace).
Qed.

(** Whatever the line, only whitespace is removed: the other characters
    are all kept, in order. *)
Lemma stripped_keeps_the_rest line :
  List.filter (fun c => negb (char_in c whitespace)) (stripped line)
  = List.filter (fun c => negb (char_in c whitespace)) line.
Proof.
  unfold stripped. rewrite remove_obsolete_characters_loop.
  generalize (@None ascii) false.
  induction line as [|c line IH]; intros prev found; [done |].
  cbn [strip_loop_from]. set (f := if Ascii.eqb c dquote then _ else _).
  destruct (f || _) eqn:E; simpl.
  - by rewrite IH.
  - rewrite IH. apply orb_false_iff in E as [-> E]. simpl in E.
    apply negb_false_iff in E. by rewrite E.
Qed.

(** C4. The quote that opens a line does not toggle the quoted state: on
    the line ["a b" c] the stripping removes the blank between the quotes
    and keeps the blank after them, where the stripping of the
    specification keeps the first and removes the second. *)
Theorem strip_leading_quote_not_toggled :
  let line := dquote :: py "a b" ++ dquote :: py " c" in
  _remove_obsolete_characters dquote whitespace line = dquote :: py "ab" ++ dquote :: py " c"
  ∧ strip_spec line = dquote :: py "a b" ++ dquote :: py "c"
  ∧ _remove_obsolete_characters dquote whitespace line ≠ strip_spec line.
Proof. vm_compute. repeat split; done. Qed.

End Stripping.

(** ** The input backend *)

Section Backend.

Implicit Types (w : world) (evs : list event) (key_codes : list Z).

Opaque _win_key.

Lemma emit_nil w : emit [] w = w.
Proof. destruct w. unfold emit. simpl. by rewrite app_nil_r. Qed.

Lemma emit_emit evs1 evs2 w : emit evs2 (emit evs1 w) = emit (evs1 ++ evs2) w.
Proof. unfold emit. simpl. by rewrite app_assoc. Qed.

Lemma inputs_emit evs w : inputs (emit evs w) = inputs w ++ List.filter is_input evs.
Proof. unfold inputs, emit. simpl. by rewrite List.filter_app. Qed.

Lemma fold_left_hold key_codes w :
  fold_left (fun w key_code => _keyboard_hold key_code w) key_codes w
  = emit (map hold_event key_codes) w.
Proof.
  revert w. induction key_codes as [|k key_codes IH]; intros w; simpl.
  - by rewrite emit_nil.
  - rewrite IH. unfold _keyboard_hold, _send_input. by rewrite emit_emit.
Qed.

Lemma fold_left_release key_codes w :
  fold_left (fun w key_code => _keyboard_release key_code w) key_codes w
  = emit (map release_event key_codes) w.
Proof.
  revert w. induction key_codes as [|k key_codes IH]; intros w; simpl.
  - by rewrite emit_nil.
  - rewrite IH. unfold _keyboard_release, _send_input. by rewrite emit_emit.
Qed.

(** The first loop of [keyboard_press_combo] gives the key codes of the
    identifiers when they all have one and no key code comes twice. *)
Lemma resolve_keys_spec (keys : list str) (handled_keys : gset Z) key_codes :
  resolve_keys keys handled_keys key_codes =
  match mapM _get_hex_code keys with
  | Some codes =>
      if bool_decide (NoDup codes ∧ Forall (fun k => k ∉ handled_keys) codes)
      then Some (key_codes ++ codes) else None
  | None => None
  end.
Proof.
  revert handled_keys key_codes.
  induction keys as [|key keys IH]; intros handled_keys key_codes.
  - change (mapM _get_hex_code []) with (Some (@nil Z)). cbn [resolve_keys].
    rewrite bool_decide_eq_true_2; [by rewrite app_nil_r |].
    split; constructor.
  - cbn [resolve_keys mapM]. destruct (_get_hex_code key) as [kc|]; [| done].
    cbn [mbind option_bind]. case_bool_decide as Hin.
    + destruct (mapM _get_hex_code keys) as [codes|]; [| done]. simpl.
      rewrite bool_decide_eq_false_2; [done |].
      intros [_ Hall]. inversion Hall; subst. done.
    + rewrite IH. destruct (mapM _get_hex_code keys) as [codes|]; [| done]. simpl.
      rewrite <- app_assoc. simpl.
      apply (f_equal (fun b : bool => if b then Some (key_codes ++ kc :: codes) else None)).
      apply bool_decide_ext. rewrite NoDup_cons, Forall_cons, !Forall_forall.
      split.
      * intros [Hnd Hall]. repeat split; [| done | done |].
        -- intros Hk. apply (Hall _ Hk). set_solver.
        -- intros x Hx Hh. apply (Hall _ Hx). set_solver.
      * intros [[Hk Hnd] [_ Hall]]. split; [done |].
        intros x Hx Hh. apply elem_of_union in Hh as [Hh | Hh]; [| by apply (Hall x)].
        apply elem_of_singleton in Hh. by subst.
Qed.

Lemma keyboard_press_combo_spec (key_set : str) w :
  keyboard_press_combo key_set w =
  match mapM _get_hex_code (split plus_sign (remove_char space key_set)) with
  | Some codes =>
      if bool_decide (NoDup codes)
      then (true, emit (map hold_event codes ++ [Sleep timeout]
                        ++ map release_event (rev codes)) w)
      else (false, w)
  | None => (false, w)
  end.
Proof.
  unfold keyboard_press_combo. rewrite resolve_keys_spec.
  destruct (mapM _ _) as [codes|]; [| done].
  case_bool_decide as H1; case_bool_decide as H2.
  - cbn [app]. rewrite fold_left_hold, fold_left_release. unfold _sleep.
    by rewrite !emit_emit.
  - tauto.
  - exfalso. apply H1. split; [done |]. apply Forall_forall. set_solver.
  - done.
Qed.

Lemma keyboard_press_char (c : ascii) w :
  keyboard_press [c] w =
  match _get_hex_code [c] with
  | Some key_code => (true, emit (press_events key_code) w)
  | None => (false, w)
  end.
Proof.
  unfold keyboard_press. destruct (_get_hex_code [c]); [| done].
  unfold _keyboard_hold, _keyboard_release, _sleep, _send_input.
  by rewrite !emit_emit.
Qed.

End Backend.

(** ** The handlers *)

Section Handlers.

Implicit Types (w : world) (seq x y : str).

Opaque _win_key.

(** C5. [press] takes the identifiers between the [+] signs of the
    sequence once the spaces are dropped (a backslash is a character of
    the identifier like any other). When every identifier has a key code
    and no key code comes twice, it holds the keys in the order given,
    waits the hold time and releases them in reverse order, and answers
    true. When an identifier is unknown, or two identifiers stand for the
    same key code, it answers false and nothing is held. *)
Theorem press_holds_then_releases seq w :
  let ids := split plus_sign (remove_char space seq) in
  (∀ codes,
     Forall2 (fun id code => _get_hex_code id = Some code) ids codes ->
     NoDup codes ->
     ExecutionAPI.press seq w
     = (Ok (Some true),
        emit (map hold_event codes ++ [Sleep timeout] ++ map release_event (rev codes)) w))
  ∧ ((∃ id, id ∈ ids ∧ _get_hex_code id = None) ->
     ExecutionAPI.press seq w = (Ok (Some false), w))
  ∧ ((∃ (i j : nat) idi idj code,
        i ≠ j ∧ ids !! i = Some idi ∧ ids !! j = Some idj
        ∧ _get_hex_code idi = Some code ∧ _get_hex_code idj = Some code) ->
     ExecutionAPI.press seq w = (Ok (Some false), w))
  ∧ (¬ (∃ codes, Forall2 (fun id code => _get_hex_code id = Some code) ids codes
                 ∧ NoDup codes) ->
     ExecutionAPI.press seq w = (Ok (Some false), w)).
Proof.
  intros ids.
  assert (∀ codes, Forall2 (fun id code => _get_hex_code id = Some code) ids codes ->
                   mapM _get_hex_code ids = Some codes) as Hm.
  { intros codes H. by apply mapM_Some. }
  assert (¬ (∃ codes, Forall2 (fun id code => _get_hex_code id = Some code) ids codes
                      ∧ NoDup codes) ->
          ExecutionAPI.press seq w = (Ok (Some false), w)) as Hfail.
  { intros Hno. unfold ExecutionAPI.press. rewrite keyboard_press_combo_spec. fold ids.
    destruct (mapM _get_hex_code ids) as [codes|] eqn:E; [| done].
    case_bool_decide as Hnd; [| done].
    exfalso. apply Hno. exists codes. split; [by apply mapM_Some | done]. }
  split; [| split; [| split]].
  - intros codes Hall Hnd. unfold ExecutionAPI.press.
    rewrite keyboard_press_combo_spec. fold ids. rewrite (Hm _ Hall).
    by rewrite bool_decide_eq_true_2.
  - intros (id & Hid & Hnone). apply Hfail. intros (codes & Hall & _).
    apply list_elem_of_lookup in Hid as [i Hi].
    destruct (Forall2_lookup_l _ _ _ _ _ Hall Hi) as (code & _ & Hc). congruence.
  - intros (i & j & idi & idj & code & Hij & Hi & Hj & Hci & Hcj).
    apply Hfail. intros (codes & Hall & Hnd).
    destruct (Forall2_lookup_l _ _ _ _ _ Hall Hi) as (ci & Hli & Hci').
    destruct (Forall2_lookup_l _ _ _ _ _ Hall Hj) as (cj & Hlj & Hcj').
    assert (ci = code) as -> by congruence. assert (cj = code) as -> by congruence.
    apply Hij. by eapply NoDup_lookup.
  - done.
Qed.

(** The loop of [write] answers true exactly when every character that
    is left has a key. *)
Lemma write_loop_answer seq (todo : str) w :
  fst (ExecutionAPI.write_loop seq todo w)
  = Ok (Some (bool_decide (Forall (fun c => is_Some (_get_hex_code [c])) todo))).
Proof.
  revert w. induction todo as [|c todo IH]; intros w.
  - cbn [ExecutionAPI.write_loop fst]. by rewrite bool_decide_eq_true_2.
  - cbn [ExecutionAPI.write_loop]. rewrite keyboard_press_char.
    destruct (_get_hex_code [c]) as [k|] eqn:E.
    + rewrite IH. do 2 f_equal. apply bool_decide_ext. rewrite Forall_cons.
      split; [| tauto]. intros H. split; [| done]. rewrite E. by eexists.
    + cbn [fst]. rewrite bool_decide_eq_false_2; [done |].
      intros H. inversion H as [|? ? Hc]; subst. rewrite E in Hc. by destruct Hc.
Qed.

Lemma write_loop_known seq (todo : str) w :
  Forall (fun c => is_Some (_get_hex_code [c])) todo ->
  ExecutionAPI.write_loop seq todo w
  = (Ok (Some true), emit (concat (map char_events todo)) w).
Proof.
  revert w. induction todo as [|c todo IH]; intros w Hall.
  - simpl. by rewrite emit_nil.
  - inversion Hall as [|? ? [k Hk] Hrest]; subst.
    cbn [ExecutionAPI.write_loop]. rewrite keyboard_press_char, Hk.
    rewrite IH by done. simpl. unfold char_events at 2. rewrite Hk.
    by rewrite emit_emit.
Qed.

Lemma write_loop_unknown seq (done_ : str) (c : ascii) (later : str) w :
  Forall (fun c => is_Some (_get_hex_code [c])) done_ ->
  _get_hex_code [c] = None ->
  ExecutionAPI.write_loop seq (done_ ++ c :: later) w
  = (Ok (Some false),
     emit (concat (map char_events done_) ++ [Stderr (CouldNotWrite [c] seq)]) w).
Proof.
  revert w. induction done_ as [|d done_ IH]; intros w Hall Hc.
  - simpl. rewrite keyboard_press_char, Hc. done.
  - inversion Hall as [|? ? [k Hk] Hrest]; subst.
    cbn [app ExecutionAPI.write_loop]. rewrite keyboard_press_char, Hk.
    rewrite IH by done. simpl. unfold char_events at 2. rewrite Hk.
    by rewrite emit_emit, <- app_assoc.
Qed.

(** C6. [write] presses the characters of the sequence one by one, in
    order: hold, wait, release. When every character has a key it answers
    true after pressing them all. At the first character without a key it
    writes that character and the sequence to the error stream and
    answers false: the characters before it were pressed, none of the
    later ones is tried. It answers true exactly when every character has
    a key. *)
Theorem write_presses_until_unknown seq w :
  (Forall (fun c => is_Some (_get_hex_code [c])) seq ->
   ExecutionAPI.write seq w = (Ok (Some true), emit (concat (map char_events seq)) w))
  ∧ (∀ (done_ : str) (c : ascii) (later : str),
       seq = done_ ++ c :: later ->
       Forall (fun c => is_Some (_get_hex_code [c])) done_ ->
       _get_hex_code [c] = None ->
       ExecutionAPI.write seq w
       = (Ok (Some false),
          emit (concat (map char_events done_) ++ [Stderr (CouldNotWrite [c] seq)]) w))
  ∧ (fst (ExecutionAPI.write seq w) = Ok (Some true)
     <-> Forall (fun c => is_Some (_get_hex_code [c])) seq).
Proof.
  unfold ExecutionAPI.write. split; [| split].
  - apply write_loop_known.
  - intros done_ c later Hs Hall Hc. rewrite Hs at 2. by apply write_loop_unknown.
  - rewrite write_loop_answer. split.
    + intros [= H]. by apply bool_decide_eq_true_1 in H.
    + intros H. by rewrite bool_decide_eq_true_2.
Qed.

(** [move] with an argument that is not all digits: the answer is [None],
    after a line on the error stream; the backend is not called. *)
Lemma move_not_digits x y w :
  isdigit x = false ∨ isdigit y = false ->
  ExecutionAPI.move x y w = (Ok None, emit [Stderr (NotAnInteger x y)] w).
Proof.
  intros H. unfold ExecutionAPI.move.
  assert (negb (isdigit x) || negb (isdigit y) = true) as ->; [| done].
  destruct H as [-> | ->]; [done | by rewrite orb_true_r].
Qed.


(** C7. [move] with an abscissa that is not a number answers [None],
    which is not the boolean [False]; it writes one line to the error
    stream and the backend is not called. *)
Theorem move_answers_none_not_false :
  let w := refresh_monitor_size 1920 1080 (World 0 0 0 0 []) in
  ExecutionAPI.move (py "a") (py "1") w
  = (Ok None, emit [Stderr (NotAnInteger (py "a") (py "1"))] w)
  ∧ fst (ExecutionAPI.move (py "a") (py "1") w) ≠ Ok (Some false)
  ∧ inputs (snd (ExecutionAPI.move (py "a") (py "1") w)) = inputs w.
Proof.
  intros w. rewrite move_not_digits by (by left).
  split; [done |]. split; [done |].
  cbn [snd]. by rewrite inputs_emit, app_nil_r.
Qed.

End Handlers.

(** ** The script executor *)

Section Executor.

Import ScriptExecutor.

Implicit Types (w : world) (script : list command) (name raw : str) (delay : Z).

Opaque _win_key.

(** The five entries of [_commands]. *)
Lemma commands_lookup name (arity : Z) (handle : handler) :
  _commands !! name = Some (arity, handle) ->
  (name = py "press" ∧ arity = 1 ∧ handle = call1 ExecutionAPI.press)
  ∨ (name = py "write" ∧ arity = 1 ∧ handle = call1 ExecutionAPI.write)
  ∨ (name = py "move" ∧ arity = 2 ∧ handle = call2 ExecutionAPI.move)
  ∨ (name = py "hold_mouse" ∧ arity = 1 ∧ handle = call1 ExecutionAPI.hold_mouse)
  ∨ (name = py "release_mouse" ∧ arity = 1 ∧ handle = call1 ExecutionAPI.release_mouse).
Proof.
  unfold _commands. intros H.
  apply lookup_insert_Some in H as [[<- [= <- <-]] | [_ H]]; [by left |].
  apply lookup_insert_Some in H as [[<- [= <- <-]] | [_ H]]; [right; by left |].
  apply lookup_insert_Some in H as [[<- [= <- <-]] | [_ H]]; [right; right; by left |].
  apply lookup_insert_Some in H as [[<- [= <- <-]] | [_ H]]; [right; right; right; by left |].
  apply lookup_insert_Some in H as [[<- [= <- <-]] | [_ H]]; [by repeat right |].
  by rewrite lookup_empty in H.
Qed.

Lemma length_one {A : Type} (l : list A) : len l = 1 -> ∃ a, l = [a].
Proof.
  unfold len. destruct l as [|a [|b l]]; simpl; [lia | by exists a | lia].
Qed.

Lemma length_two {A : Type} (l : list A) : len l = 2 -> ∃ a b, l = [a; b].
Proof.
  unfold len. destruct l as [|a [|b [|c l]]]; simpl; [lia | lia | by exists a, b | lia].
Qed.

Lemma sleep_in_range delay : 0 ≤ delay ≤ sleep_limit -> sleep delay = None.
Proof.
  intros H. unfold sleep.
  assert ((delay <? - sleep_limit) = false) as -> by (apply Z.ltb_ge; unfold sleep_limit in *; lia).
  assert ((sleep_limit <? delay) = false) as -> by (apply Z.ltb_ge; lia).
  assert ((delay <? 0) = false) as -> by (apply Z.ltb_ge; lia).
  done.
Qed.

Lemma internal_execute_cons delay name raw script w :
  0 ≤ delay ≤ sleep_limit ->
  _internal_execute ((delay, name, raw) :: script) w =
  match _commands !! name with
  | None => (Ok false, emit [Sleep delay; Stderr (CommandMissing name)] w)
  | Some (arity, handle) =>
      if bool_decide (len (split comma raw) = arity) then
        match handle (split comma raw) (emit [Sleep delay] w) with
        | (Ok _, w') => _internal_execute script w'
        | (Exn e, w') => (Exn e, w')
        end
      else (Ok false,
            emit [Sleep delay; Stderr (CommandArity name arity (len (split comma raw)))] w)
  end.
Proof.
  intros Hd. cbn [_internal_execute]. rewrite sleep_in_range by done.
  destruct (_commands !! name) as [[arity handle]|]; [| by rewrite emit_emit].
  case_bool_decide as Ha.
  - apply Z.eqb_eq in Ha. by rewrite Ha.
  - apply Z.eqb_neq in Ha. rewrite Ha. cbn [negb]. by rewrite emit_emit.
Qed.





(** C8. [execute] on a name for which no script is loaded (no table, an
    empty table, or a table without the name) answers false at once: one
    line goes to the error stream, nothing is slept and nothing is sent
    to the backend, and the module state stays as it is. *)
Theorem execute_unknown_script (self : executor) (script_name : str) w :
  (∀ t, scripts self = Some t -> t !! script_name = None) ->
  execute self script_name w = (Ok false, emit [Stderr (NoScriptLoaded script_name)] w)
  ∧ inputs (snd (execute self script_name w)) = inputs w
  ∧ _SCREEN_WIDTH_PX (snd (execute self script_name w)) = _SCREEN_WIDTH_PX w
  ∧ _SCREEN_HEIGHT_PX (snd (execute self script_name w)) = _SCREEN_HEIGHT_PX w.
Proof.
  intros H.
  assert (execute self script_name w
          = (Ok false, emit [Stderr (NoScriptLoaded script_name)] w)) as ->.
  { unfold execute. destruct (scripts self) as [t|]; [| done].
    case_bool_decide; [done |]. by rewrite (H t eq_refl). }
  split; [done |]. cbn [snd]. rewrite inputs_emit. simpl. by rewrite app_nil_r.
Qed.

(** [execute] on a loaded name runs the script. *)
Lemma execute_loaded (self : executor) (script_name : str) t script w :
  scripts self = Some t -> t !! script_name = Some script ->
  execute self script_name w = _internal_execute script w.
Proof.
  intros Ht Hs. unfold execute. rewrite Ht.
  rewrite bool_decide_eq_false_2; [by rewrite Hs |].
  intros ->. by rewrite lookup_empty in Hs.
Qed.

End Executor.

(** ** Sample runs *)

Section Runs.

Import ScriptExecutor.

(** One script with one command. *)
Example load_one_script :
  load_scripts (Some (open_A ++ press_ctrl_c ++ close)) = Continue table_A.
Proof. vm_compute. reflexivity. Qed.

(** Two scripts of one name: no table. *)
Example load_same_name_twice :
  load_scripts (Some twice_A) = ReturnNone (Some (DuplicateName (py "A"))).
Proof. vm_compute. reflexivity. Qed.

(** The parameters of a [move] have two fields. *)
Example load_move_line :
  load_lines [open_A; move_10_20] = Continue (<[py "A" := [(5, py "move", py "10,20")]]> ∅)
  ∧ split comma (py "10,20") = [py "10"; py "20"].
Proof. vm_compute. split; reflexivity. Qed.

(** A delay that is not a number, an empty delay, and a delay written
    with a superscript digit, which [isdigit] accepts and [int] refuses. *)
Example load_bad_delays :
  load_lines [open_A; abc_delay] = ReturnNone (Some (DelayNotInteger (py "abc")))
  ∧ load_lines [open_A; no_delay]
    = ReturnNone (Some (InvalidSplit 0 6 7 9 (py ",press," ++ quoted (py "a"))))
  ∧ load_lines [open_A; chr 178 :: py ",press," ++ quoted (py "a")] = Raise ValueError.
Proof. vm_compute. repeat split; reflexivity. Qed.

(** Blanks outside the quotes do not count, blanks inside do. *)
Example load_blanks :
  stripped (py "  5 , press , " ++ quoted (py "a b") ++ py "  ")
  = py "5,press," ++ quoted (py "a b")
  ∧ load_lines [open_A; py "  5 , press , " ++ quoted (py "a") ++ py "  "]
    = load_lines [open_A; py "5,press," ++ quoted (py "a")].
Proof. vm_compute. split; reflexivity. Qed.

(** A lone [---] while no script is open is a tag without name. *)
Example load_lone_tag : load_lines [close] = ReturnNone (Some (NoName 1)).
Proof. vm_compute. reflexivity. Qed.

(** The registry: five commands and their numbers of parameters. *)
Example registry_arities :
  fst <$> _commands
  = <[py "press" := 1]> (<[py "write" := 1]> (<[py "move" := 2]>
      (<[py "hold_mouse" := 1]> (<[py "release_mouse" := 1]> ∅)))).
Proof. vm_compute. reflexivity. Qed.

(** The third command has one field too few: the first two run, the
    third is slept for and rejected, the fourth is not reached. *)
Example execute_stops_at_third :
  _internal_execute
    [(1, py "press", py "a"); (2, py "hold_mouse", py "nowhere");
     (3, py "move", py "10"); (4, py "press", py "b")] desktop
  = (Ok false,
     emit [Sleep 1; hold_event 65; Sleep 5; release_event 65;
           Sleep 2; Stderr (InvalidHoldButton (py "nowhere"));
           Sleep 3; Stderr (CommandArity (py "move") 2 1)] desktop).
Proof. vm_compute. reflexivity. Qed.

(** [move] up to the stored width and height, and beyond. *)
Example move_bounds :
  fst (ExecutionAPI.move (py "1920") (py "1080") desktop) = Ok (Some true)
  ∧ ExecutionAPI.move (py "1921") (py "5") desktop = (Ok (Some false), desktop)
  ∧ fst (ExecutionAPI.move (py "5") [chr 178] desktop) = Exn ValueError.
Proof. vm_compute. repeat split; reflexivity. Qed.

End Runs.

(** ** The statements at sample inputs *)

Section Instances.

Import ScriptExecutor.

(** The specification's press handler differs from the code on a
    sequence with a backslash and on two identifiers of one key: the code
    answers false on both, the handler of the specification true. *)
Lemma press_backslash_and_same_key :
  (ExecutionAPI.press (py "\a") desktop = (Ok (Some false), desktop)
   ∧ fst (press_spec (py "\a") desktop) = Ok (Some true))
  ∧ (ExecutionAPI.press (py "a+A") desktop = (Ok (Some false), desktop)
     ∧ fst (press_spec (py "a+A") desktop) = Ok (Some true))
  ∧ ¬ (∀ seq w, ExecutionAPI.press seq w = press_spec seq w).
Proof.
  split; [| split].
  - vm_compute. done.
  - vm_compute. done.
  - intros H. specialize (H (py "\a") desktop). vm_compute in H. discriminate H.
Qed.

(** After [---A], the line [5,move,"10,20"] is appended as a command and
    the line [abc,press,"a"] ends the load. *)
Lemma body_line_appends_or_fails_witness :
  (∃ cmds delay,
     (<[py "A" := []]> ∅ : table) !! py "A" = Some cmds
     ∧ int (delay_field (stripped move_10_20)) = Some delay ∧ 0 ≤ delay
     ∧ load_line (<[py "A" := []]> ∅, py "A") (1 + length [open_A]) move_10_20
       = Continue (<[py "A" := cmds ++ [(delay, command_field (stripped move_10_20),
                                         param_field (stripped move_10_20))]]>
                     (<[py "A" := []]> ∅), py "A"))
  ∧ (stopped (load_line (<[py "A" := []]> ∅, py "A") (1 + length [open_A]) abc_delay)
     ∧ ∀ after, returned_table (load_lines ([open_A] ++ abc_delay :: after)) = None).
Proof.
  assert (load_loop initial 1 [open_A] = Continue (<[py "A" := []]> ∅, py "A")) as Hrun.
  { vm_compute. reflexivity. }
  assert (py "A" ≠ []) as Hname by discriminate.
  assert (body_line (stripped move_10_20)) as Hbody1.
  { unfold body_line. apply (bool_decide_unpack _). vm_compute. exact I. }
  assert (body_line (stripped abc_delay)) as Hbody2.
  { unfold body_line. apply (bool_decide_unpack _). vm_compute. exact I. }
  assert (boundaries_ok (stripped move_10_20)
          ∧ decimal_field (delay_field (stripped move_10_20))) as Hgood.
  { apply (bool_decide_unpack _). vm_compute. exact I. }
  assert (¬ (boundaries_ok (stripped abc_delay)
             ∧ decimal_field (delay_field (stripped abc_delay)))) as Hbad.
  { apply (bool_decide_unpack _). vm_compute. exact I. }
  exact (conj
    (proj1 (body_line_appends_or_fails [open_A] _ (py "A") move_10_20 Hrun Hname Hbody1) Hgood)
    (proj2 (body_line_appends_or_fails [open_A] _ (py "A") abc_delay Hrun Hname Hbody2) Hbad)).
Defined.

(** The second [---A] of [twice_A] is a duplicate name: no table. *)
Lemma load_scripts_all_or_none_witness :
  returned_table (load_scripts (Some twice_A)) = None
  ∧ scripts_of (readlines A_then_B)
    = Some [(py "A", [(0, py "press", py "ctrl+c")]); (py "B", [(5, py "move", py "10,20")])]
  ∧ ∃ t, load_scripts (Some A_then_B) = Continue t
         ∧ t !! py "A" = Some [(0, py "press", py "ctrl+c")]
         ∧ t !! py "B" = Some [(5, py "move", py "10,20")]
         ∧ t !! py "C" = None.
Proof.
  assert (readlines twice_A = [open_A; press_ctrl_c; close] ++ open_A :: [close]) as Hlines.
  { vm_compute. reflexivity. }
  assert (load_loop initial 1 [open_A; press_ctrl_c; close] = Continue (table_A, [])) as Hrun.
  { vm_compute. reflexivity. }
  assert (parse_error (table_A, []) (stripped open_A)) as Herr.
  { change (stripped open_A) with (tag ++ py "A").
    apply duplicate_script_name; [discriminate |].
    exists [(0, py "press", py "ctrl+c")]. vm_compute. reflexivity. }
  assert (scripts_of (readlines A_then_B)
          = Some [(py "A", [(0, py "press", py "ctrl+c")]);
                  (py "B", [(5, py "move", py "10,20")])]) as Hscripts.
  { vm_compute. reflexivity. }
  destruct (load_scripts_all_or_none twice_A) as (_ & Hnone & _).
  destruct (load_scripts_all_or_none A_then_B) as (_ & _ & Htable).
  rewrite Hscripts in Htable. destruct Htable as (_ & t & Ht & Hin).
  split; [| split; [exact Hscripts |]].
  - exact (Hnone [open_A; press_ctrl_c; close] open_A [close] (table_A, [])
                 Hlines Hrun Herr).
  - exists t. split; [exact Ht |]. split; [| split].
    + apply Hin. constructor.
    + apply Hin. do 2 constructor.
    + destruct (t !! py "C") as [cmds|] eqn:Hc; [| reflexivity].
      apply Hin in Hc. exfalso.
      apply elem_of_cons in Hc as [Hc | Hc]; [vm_compute in Hc; discriminate Hc |].
      apply elem_of_cons in Hc as [Hc | Hc]; [vm_compute in Hc; discriminate Hc |].
      by apply elem_of_nil in Hc.
Defined.

(** A text that ends two commands after [---A]. *)
Lemma unterminated_script_is_kept_witness :
  load_lines ([free_text] ++ open_A :: [move_10_20; press_ctrl_c])
  = Continue (<[py "A" := [(5, py "move", py "10,20"); (0, py "press", py "ctrl+c")]]> ∅)
  ∧ load_loop initial 1 ([free_text] ++ open_A :: [move_10_20; press_ctrl_c])
    = Continue (<[py "A" := [(5, py "move", py "10,20"); (0, py "press", py "ctrl+c")]]> ∅,
                py "A").
Proof.
  assert (load_loop initial 1 [free_text] = Continue (∅, [])) as Hrun.
  { vm_compute. reflexivity. }
  assert (stripped open_A = tag ++ py "A") as Hopen.
  { vm_compute. reflexivity. }
  assert (py "A" ≠ []) as Hname by discriminate.
  assert ((∅ : table) !! py "A" = None) as Hfresh.
  { vm_compute. reflexivity. }
  assert (body_commands [move_10_20; press_ctrl_c]
          = Some [(5, py "move", py "10,20"); (0, py "press", py "ctrl+c")]) as Hbody.
  { vm_compute. reflexivity. }
  exact (unterminated_script_is_kept [free_text] open_A [move_10_20; press_ctrl_c] ∅ (py "A") _
           Hrun Hopen Hname Hfresh Hbody).
Defined.

(** Two lines of free text between the scripts [A] and [B]. *)
Lemma text_between_scripts_is_skipped_witness :
  without_line_n (load_lines ([open_A; press_ctrl_c; close] ++ [free_text; move_10_20]
                              ++ [open_B; close]))
  = without_line_n (load_lines ([open_A; press_ctrl_c; close] ++ [open_B; close]))
  ∧ returned_table (load_lines ([open_A; press_ctrl_c; close] ++ [free_text; move_10_20]
                                ++ [open_B; close]))
    = returned_table (load_lines ([open_A; press_ctrl_c; close] ++ [open_B; close])).
Proof.
  assert (load_loop initial 1 [open_A; press_ctrl_c; close] = Continue (table_A, [])) as Hrun.
  { vm_compute. reflexivity. }
  assert (Forall (fun line => ¬ tag `prefix_of` stripped line) [free_text; move_10_20]) as Hjunk.
  { apply (bool_decide_unpack _). vm_compute. exact I. }
  exact (proj2 text_between_scripts_is_skipped
               [open_A; press_ctrl_c; close] [free_text; move_10_20] [open_B; close] table_A
               Hrun Hjunk).
Defined.

(** [ctrl + c] is pressed; [ctrl+\c] has an unknown identifier; [a+A]
    names one key twice. *)
Lemma press_holds_then_releases_witness :
  ExecutionAPI.press (py "ctrl + c") desktop
  = (Ok (Some true),
     emit (map hold_event [17; 67] ++ [Sleep timeout] ++ map release_event (rev [17; 67]))
          desktop)
  ∧ ExecutionAPI.press (py "ctrl+\c") desktop = (Ok (Some false), desktop)
  ∧ ExecutionAPI.press (py "a+A") desktop = (Ok (Some false), desktop).
Proof.
  destruct (press_holds_then_releases (py "ctrl + c") desktop) as (Hok & _).
  destruct (press_holds_then_releases (py "ctrl+\c") desktop) as (_ & Hunknown & _).
  destruct (press_holds_then_releases (py "a+A") desktop) as (_ & _ & Hsame & _).
  split; [| split].
  - apply (Hok [17; 67]).
    + apply (bool_decide_unpack _). vm_compute. exact I.
    + apply (bool_decide_unpack _). vm_compute. exact I.
  - apply Hunknown. exists (py "\c"). split.
    + apply (bool_decide_unpack _). vm_compute. exact I.
    + vm_compute. reflexivity.
  - apply Hsame. exists 0%nat, 1%nat, (py "a"), (py "A"), 65.
    split; [discriminate |]. repeat split; vm_compute; reflexivity.
Defined.

(** [ab] is written; [a!9] stops at the exclamation mark. *)
Lemma write_presses_until_unknown_witness :
  ExecutionAPI.write (py "ab") desktop
  = (Ok (Some true), emit (concat (map char_events (py "ab"))) desktop)
  ∧ ExecutionAPI.write (py "a!9") desktop
    = (Ok (Some false),
       emit (concat (map char_events (py "a")) ++ [Stderr (CouldNotWrite (py "!") (py "a!9"))])
            desktop).
Proof.
  destruct (write_presses_until_unknown (py "ab") desktop) as (Hall & _).
  destruct (write_presses_until_unknown (py "a!9") desktop) as (_ & Hstop & _).
  split.
  - apply Hall. apply (bool_decide_unpack _). vm_compute. exact I.
  - apply (Hstop (py "a") "!"%char (py "9")).
    + reflexivity.
    + apply (bool_decide_unpack _). vm_compute. exact I.
    + vm_compute. reflexivity.
Defined.



(** The script [B] is not in a table that holds the script [A]. *)
Lemma execute_unknown_script_witness :
  execute (Executor (Some table_A)) (py "B") desktop
  = (Ok false, emit [Stderr (NoScriptLoaded (py "B"))] desktop)
  ∧ inputs (snd (execute (Executor (Some table_A)) (py "B") desktop)) = inputs desktop
  ∧ _SCREEN_WIDTH_PX (snd (execute (Executor (Some table_A)) (py "B") desktop))
    = _SCREEN_WIDTH_PX desktop
  ∧ _SCREEN_HEIGHT_PX (snd (execute (Executor (Some table_A)) (py "B") desktop))
    = _SCREEN_HEIGHT_PX desktop.
Proof.
  apply (execute_unknown_script (Executor (Some table_A)) (py "B") desktop).
  intros t Ht. injection Ht as <-. vm_compute. reflexivity.
Defined.

End Instances.

(** * Further properties of the code *)

(** ** The helpers of the script reader *)

Section ReaderHelpers.

Implicit Types (line rest prefix : str) (found : bool).

(** [_contains_prefix] holds exactly when the prefix starts the line and
    the line is not empty: the empty prefix starts every line but the
    empty one. *)
Theorem contains_prefix_exact prefix line :
  _contains_prefix prefix line = true <-> prefix `prefix_of` line ∧ line ≠ [].
Proof.
  destruct prefix as [|p prefix].
  - unfold _contains_prefix, len. simpl length. destruct line as [|c line].
    + simpl. split; [done | intros [_ H]; done].
    + replace ((Z.of_nat (length (c :: line)) <? Z.of_nat 0)
               || (Z.of_nat (length (c :: line)) =? 0)) with false.
      * simpl. split; [| done]. intros _. split; [apply prefix_nil | done].
      * symmetry. apply orb_false_iff. split.
        -- apply Z.ltb_ge. simpl length. lia.
        -- apply Z.eqb_neq. simpl length. lia.
  - rewrite contains_prefix_spec by done. split; [| tauto].
    intros H. split; [done |]. intros ->. by apply prefix_nil_not in H.
Qed.

Lemma strip_loop_from_sublist mark_char rm_chars (prev : option ascii) found rest :
  strip_loop_from mark_char rm_chars prev found rest `sublist_of` rest.
Proof.
  revert prev found. induction rest as [|c rest IH]; intros prev found; [done |].
  cbn [strip_loop_from]. destruct (_ || _).
  - apply sublist_skip, IH.
  - apply sublist_cons, IH.
Qed.

Lemma strip_loop_from_keeps mark_char rm_chars (prev : option ascii) found rest :
  List.filter (fun c => negb (char_in c rm_chars))
              (strip_loop_from mark_char rm_chars prev found rest)
  = List.filter (fun c => negb (char_in c rm_chars)) rest.
Proof.
  revert prev found. induction rest as [|c rest IH]; intros prev found; [done |].
  cbn [strip_loop_from]. set (f := if Ascii.eqb c mark_char then _ else _).
  destruct (f || _) eqn:E; simpl.
  - by rewrite IH.
  - rewrite IH. apply orb_false_iff in E as [-> E]. simpl in E.
    apply negb_false_iff in E. by rewrite E.
Qed.

(** [_remove_obsolete_characters] only takes characters away, and only
    characters of [rm_chars]: what it returns is the line with some
    characters left out, and the characters that are not in [rm_chars] are
    all there, in order. *)
Theorem remove_obsolete_characters_only_removes (mark_char : ascii) (rm_chars : str) line :
  _remove_obsolete_characters mark_char rm_chars line `sublist_of` line
  ∧ List.filter (fun c => negb (char_in c rm_chars))
                (_remove_obsolete_characters mark_char rm_chars line)
    = List.filter (fun c => negb (char_in c rm_chars)) line.
Proof.
  rewrite remove_obsolete_characters_loop. split.
  - apply strip_loop_from_sublist.
  - apply strip_loop_from_keeps.
Qed.

Lemma strip_loop_from_no_mark mark_char rm_chars (prev : option ascii) rest :
  mark_char ∉ rest ->
  strip_loop_from mark_char rm_chars prev false rest
  = List.filter (fun c => negb (char_in c rm_chars)) rest.
Proof.
  revert prev. induction rest as [|c rest IH]; intros prev Hm; [done |].
  apply not_elem_of_cons in Hm as [Hc Hm].
  cbn [strip_loop_from List.filter].
  assert (Ascii.eqb c mark_char = false) as -> by (apply eqb_char_false; congruence).
  cbn [orb negb andb]. rewrite IH by done. by destruct (char_in c rm_chars).
Qed.

(** On a line without the mark character, every character of [rm_chars]
    is removed. *)
Theorem remove_obsolete_characters_no_mark (mark_char : ascii) (rm_chars : str) line :
  mark_char ∉ line ->
  _remove_obsolete_characters mark_char rm_chars line
  = List.filter (fun c => negb (char_in c rm_chars)) line.
Proof.
  intros H. rewrite remove_obsolete_characters_loop. by apply strip_loop_from_no_mark.
Qed.

(** The line [ 5 , press ] has no quote. *)
Lemma remove_obsolete_characters_no_mark_witness :
  _remove_obsolete_characters dquote whitespace (py " 5 , press ")
  = List.filter (fun c => negb (char_in c whitespace)) (py " 5 , press ").
Proof.
  assert (dquote ∉ py " 5 , press ") as H.
  { apply (bool_decide_unpack _). vm_compute. exact I. }
  exact (remove_obsolete_characters_no_mark dquote whitespace (py " 5 , press ") H).
Defined.

End ReaderHelpers.

(** ** The loop of [load_scripts], further *)

Section ReaderLoop.

Implicit Types (scripts : table) (s_name temp line : str) (line_n : nat)
  (st : state) (lines : list str).

(** The line [ 5 , press , "a b" ] starts with a blank, not with a quote. *)
Lemma stripped_is_strip_spec_witness :
  stripped (py " 5 , press , " ++ quoted (py "a b")) = strip_spec (py " 5 , press , " ++ quoted (py "a b")).
Proof.
  assert (head (py " 5 , press , " ++ quoted (py "a b")) ≠ Some dquote) as H.
  { apply (bool_decide_unpack _). vm_compute. exact I. }
  exact (stripped_is_strip_spec _ H).
Defined.

(** The elements of a slice are the characters at the indexes from the
    first bound up to the second. *)
Lemma slice_elem (s : str) (a b : Z) (x : ascii) :
  0 ≤ a -> 0 ≤ b -> x ∈ slice s a b ->
  ∃ j : nat, a ≤ Z.of_nat j < b ∧ s !! j = Some x.
Proof.
  intros Ha Hb. unfold slice, clamp, len.
  assert ((a <? 0) = false) as -> by (apply Z.ltb_ge; lia).
  assert ((b <? 0) = false) as -> by (apply Z.ltb_ge; lia).
  intros Hx. apply elem_of_take in Hx as (i & Hi & Hlt).
  rewrite lookup_drop in Hi. eexists. split; [| exact Hi].
  apply lookup_lt_Some in Hi. lia.
Qed.

Lemma slice_to_elem (s : str) (b : Z) (x : ascii) :
  0 ≤ b -> x ∈ slice_to s b -> ∃ j : nat, Z.of_nat j < b ∧ s !! j = Some x.
Proof.
  intros Hb. unfold slice_to, clamp, len.
  assert ((b <? 0) = false) as -> by (apply Z.ltb_ge; lia).
  intros Hx. apply elem_of_take in Hx as (i & Hi & Hlt).
  exists i. split; [lia | done].
Qed.

(** The command field holds no comma and the parameter field no quote. *)
Lemma fields_free temp :
  boundaries_ok temp ->
  (comma ∉ command_field temp) ∧ (dquote ∉ param_field temp).
Proof.
  unfold boundaries_ok, found. intros (H1 & H2 & H3 & H4 & H12 & H23 & H34). split.
  - intros Hin. apply slice_elem in Hin as (j & Hj & Hl); [| lia | lia].
    destruct (find_spec temp comma (first_comma temp + 1)) as [[E _] | (_ & _ & Hno)]; [lia | |].
    + unfold second_comma in H2. lia.
    + by apply (Hno j).
  - intros Hin. apply slice_elem in Hin as (j & Hj & Hl); [| lia | lia].
    destruct (find_spec temp dquote (first_quote temp + 1)) as [[E _] | (_ & _ & Hno)]; [lia | |].
    + unfold second_quote in H4. lia.
    + by apply (Hno j).
Qed.

(** What a line that does not stop the loop does to the state, with the
    name it opens or the command it appends. *)
Lemma load_line_continue_exact scripts s_name line_n line st' :
  load_line (scripts, s_name) line_n line = Continue st' ->
  st' = (scripts, s_name)
  ∨ (s_name = [] ∧ ∃ name, name ≠ [] ∧ scripts !! name = None
                          ∧ stripped line = tag ++ name
                          ∧ st' = (<[name := []]> scripts, name))
  ∨ (s_name ≠ [] ∧ st' = (scripts, []))
  ∨ (s_name ≠ [] ∧ ∃ cmds delay,
       scripts !! s_name = Some cmds ∧ boundaries_ok (stripped line)
       ∧ int (delay_field (stripped line)) = Some delay
       ∧ st' = (<[s_name := cmds ++ [(delay, command_field (stripped line),
                                      param_field (stripped line))]]> scripts, s_name)).
Proof.
  destruct s_name as [|a s_name].
  - rewrite load_line_closed. cbv zeta.
    destruct (_contains_prefix _ _) eqn:Hp; [| intros [= <-]; by left].
    apply contains_prefix_spec in Hp; [| done]. destruct Hp as [name Hname].
    destruct (_ <? _) eqn:Hlen; [done |].
    case_bool_decide as Hd; [done |].
    intros [= <-]. right. left. split; [done |].
    rewrite Hname, slice_from_tag. exists name.
    split; [| split; [| split; [done | done]]].
    + intros ->. apply Z.ltb_ge in Hlen. rewrite Hname in Hlen. by vm_compute in Hlen.
    + apply not_elem_of_dom. by rewrite Hname, slice_from_tag in Hd.
  - rewrite load_line_open by done. cbv zeta.
    destruct (_ || _); [intros [= <-]; by left |].
    destruct (_contains_prefix _ _); [intros [= <-]; right; right; by left |].
    destruct (_ || _) eqn:Hg; [done |].
    apply split_guard_false in Hg as [Hok _].
    destruct (negb _); [done |].
    destruct (scripts !! (a :: s_name)) as [cmds|] eqn:Hl; [| done].
    destruct (int _) as [d|] eqn:Hi; [| done].
    intros [= <-]. right. right. right. split; [done |]. by exists cmds, d.
Qed.

Lemma not_all_decimal (s : str) :
  forallb is_decimal s = false -> Exists (fun c => is_decimal c = false) s.
Proof.
  induction s as [|c s IH]; [done |]. simpl.
  destruct (is_decimal c) eqn:E; [| intros _; by left].
  intros H. right. by apply IH.
Qed.

Lemma load_line_raises st line_n line e :
  open_in_table st -> load_line st line_n line = Raise e ->
  e = ValueError ∧ isdigit (delay_field (stripped line)) = true
  ∧ Exists (fun c => is_decimal c = false) (delay_field (stripped line)).
Proof.
  destruct st as [scripts [|a s_name]]; intros Hin.
  - rewrite load_line_closed. cbv zeta.
    destruct (_contains_prefix _ _); [| done].
    destruct (_ <? _); [done |]. by case_bool_decide.
  - rewrite load_line_open by done. cbv zeta.
    destruct (_ || _); [done |].
    destruct (_contains_prefix _ _); [done |].
    destruct (_ || _); [done |].
    destruct (isdigit _) eqn:Hd; [| done]. cbn [negb].
    destruct (Hin ltac:(done)) as [cmds Hl]. cbn [fst snd] in Hl. rewrite Hl.
    destruct (int _) as [d|] eqn:Hi; [done |].
    intros [= <-]. split; [done |]. split; [done |].
    unfold int in Hi. destruct (delay_field (stripped line)) as [|c s] eqn:Es; [done |].
    destruct (forallb is_decimal (c :: s)) eqn:Hf; [done |].
    by apply not_all_decimal.
Qed.

Lemma load_lines_raises lines (e : pyexn) :
  load_lines lines = Raise e ->
  e = ValueError
  ∧ ∃ line, line ∈ lines
            ∧ isdigit (delay_field (stripped line)) = true
            ∧ Exists (fun c => is_decimal c = false) (delay_field (stripped line)).
Proof.
  unfold load_lines. intros H.
  destruct (load_loop initial 1 lines) as [[t s] | d | e'] eqn:E; [done | done |].
  injection H as ->.
  destruct (load_loop_stopped initial 1 lines) as (l1 & x & l2 & st & Hl & H1 & _ & H2).
  { by rewrite E. }
  rewrite E in H2. symmetry in H2.
  apply load_line_raises in H2 as (-> & Hd & Hx).
  - split; [done |]. exists x. split; [| done]. rewrite Hl. set_solver.
  - by eapply load_loop_open_in_table; [apply initial_open_in_table |].
Qed.

(** The subscription [scripts[s_name]] of the line that appends a
    command never fails: whenever a script is open its name is a key of
    the dictionary, so no [KeyError] leaves [load_scripts], whatever
    the lines are. *)
Theorem load_never_raises_key_error lines :
  load_lines lines ≠ Raise KeyError.
Proof. intros H. by apply load_lines_raises in H as [? _]. Qed.

Lemma load_line_table_ok st line_n line st' :
  table_ok st.1 -> load_line st line_n line = Continue st' -> table_ok st'.1.
Proof.
  destruct st as [scripts s_name]. cbn [fst]. intros Hok H.
  apply load_line_continue_exact in H
    as [-> | [(_ & name & Hne & Hf & _ & ->) | [(_ & ->) | (_ & cmds & d & Hl & Hb & Hi & ->)]]];
    cbn [fst]; [done | | done |].
  - intros n cs Hn. apply lookup_insert_Some in Hn as [[<- <-] | [_ Hn]]; [done |].
    by apply (Hok n).
  - intros n cs Hn. apply lookup_insert_Some in Hn as [[<- <-] | [_ Hn]]; [| by apply (Hok n)].
    destruct (Hok _ _ Hl) as [Hne Hall]. split; [done |].
    apply Forall_app. split; [done |]. apply Forall_singleton.
    destruct (fields_free _ Hb) as [Hc Hq].
    destruct (int_decimal _ (int_Some_decimal _ _ Hi)) as (d' & Hd' & Hd0).
    assert (d' = d) as -> by congruence. done.
Qed.

Lemma load_loop_table_ok st line_n lines st' :
  table_ok st.1 -> load_loop st line_n lines = Continue st' -> table_ok st'.1.
Proof.
  revert st line_n. induction lines as [|l lines IH]; intros st line_n Hok; simpl.
  - by intros [= <-].
  - destruct (load_line st line_n l) as [st1| |] eqn:E; [| done | done].
    apply IH. by eapply load_line_table_ok.
Qed.

Lemma load_lines_table_ok lines (t : table) :
  load_lines lines = Continue t -> table_ok t.
Proof.
  unfold load_lines.
  destruct (load_loop initial 1 lines) as [[t' s] | |] eqn:E; [| done | done].
  intros [= <-].
  apply (load_loop_table_ok initial 1 lines (t', s)); [| done].
  intros name cmds Hl. unfold initial in Hl. cbn [fst] in Hl.
  by rewrite lookup_empty in Hl.
Qed.

(** In a table that [load_scripts] returns, no script has the empty name,
    no delay is negative, no command name holds a comma and no parameter
    text holds a quote. *)
Theorem loaded_table_ok lines (t : table) :
  load_lines lines = Continue t -> table_ok t.
Proof. apply load_lines_table_ok. Qed.

(** The table of the one script [A]. *)
Lemma loaded_table_ok_witness : table_ok table_A.
Proof.
  assert (load_lines [open_A; press_ctrl_c; close] = Continue table_A) as H.
  { vm_compute. reflexivity. }
  exact (loaded_table_ok [open_A; press_ctrl_c; close] table_A H).
Defined.

(** From a state on, the scripts of [closed] stay as they are as long as
    none of them is the open one. *)
Lemma load_loop_keeps_closed (closed : table) st line_n lines st' :
  (∀ name cmds, closed !! name = Some cmds ->
                st.1 !! name = Some cmds ∧ (st.2 = [] ∨ name ≠ st.2)) ->
  load_loop st line_n lines = Continue st' ->
  ∀ name cmds, closed !! name = Some cmds -> st'.1 !! name = Some cmds.
Proof.
  revert st line_n. induction lines as [|l lines IH]; intros st line_n Hinv; simpl.
  - intros [= <-] name cmds Hn. by apply Hinv.
  - destruct (load_line st line_n l) as [st1| |] eqn:E; [| done | done].
    apply IH. destruct st as [scripts s_name]. cbn [fst snd] in Hinv.
    intros name cmds Hn. destruct (Hinv _ _ Hn) as [Hs Hne].
    apply load_line_continue_exact in E
      as [-> | [(_ & n & Hn0 & Hf & _ & ->) | [(_ & ->) | (Hopen & cs & d & Hl & _ & _ & ->)]]];
      cbn [fst snd].
    + done.
    + split; [| right; congruence]. rewrite lookup_insert_ne; [done | congruence].
    + split; [done | by left].
    + destruct Hne as [-> | Hne]; [done |].
      split; [| by right]. by rewrite lookup_insert_ne.
Qed.

(** Once a script is closed, nothing that follows in the file changes
    it: its commands in the returned table are the commands it had when
    its closing tag was read. *)
Theorem closed_script_is_final (before after : list str) scripts (t : table) :
  load_loop initial 1 before = Continue (scripts, []) ->
  load_lines (before ++ after) = Continue t ->
  ∀ name cmds, scripts !! name = Some cmds -> t !! name = Some cmds.
Proof.
  intros Hb. unfold load_lines. rewrite load_loop_app, Hb.
  destruct (load_loop _ _ after) as [[t' s] | |] eqn:E; [| done | done].
  intros [= <-] name cmds Hn.
  apply (load_loop_keeps_closed scripts (scripts, []) (1 + length before) after (t', s));
    [| done | done].
  intros n cs Hcs. split; [done | by left].
Qed.

(** The script [A] is closed before the script [B] is read. *)
Lemma closed_script_is_final_witness :
  (<[py "B" := [(5, py "move", py "10,20")]]> table_A) !! py "A"
  = Some [(0, py "press", py "ctrl+c")].
Proof.
  assert (load_loop initial 1 [open_A; press_ctrl_c; close] = Continue (table_A, [])) as Hb.
  { vm_compute. reflexivity. }
  assert (load_lines ([open_A; press_ctrl_c; close] ++ [open_B; move_10_20])
          = Continue (<[py "B" := [(5, py "move", py "10,20")]]> table_A)) as Hl.
  { vm_compute. reflexivity. }
  assert (table_A !! py "A" = Some [(0, py "press", py "ctrl+c")]) as Ha.
  { vm_compute. reflexivity. }
  exact (closed_script_is_final [open_A; press_ctrl_c; close] [open_B; move_10_20]
                                table_A _ Hb Hl (py "A") _ Ha).
Defined.

Lemma load_line_closes scripts s_name line_n line :
  s_name ≠ [] -> tag `prefix_of` stripped line ->
  load_line (scripts, s_name) line_n line = Continue (scripts, []).
Proof.
  intros Hne Ht. rewrite load_line_open by done. cbv zeta.
  assert ((len (stripped line) =? 0)
          || char_in (nth 0 (stripped line) Ascii.zero) (py "#%") = false) as ->.
  { apply ignorable_false. destruct Ht as [k ->]. by vm_compute. }
  assert (_contains_prefix tag (stripped line) = true) as ->; [| done].
  by apply contains_prefix_spec.
Qed.

(** While a script is open, a line that starts with [---] closes it,
    whatever follows the dashes, and leaves the table as it is: a script
    cannot be opened inside another. When the next line that starts with
    [---] is then a bare [---], it is read as a tag without name and the
    load returns no table. *)
Theorem tag_inside_script_closes_it :
  (∀ scripts s_name line_n line,
     s_name ≠ [] -> tag `prefix_of` stripped line ->
     load_line (scripts, s_name) line_n line = Continue (scripts, []))
  ∧ (∀ (before : list str) scripts s_name inner (junk : list str) closing (after : list str),
       load_loop initial 1 before = Continue (scripts, s_name) -> s_name ≠ [] ->
       tag `prefix_of` stripped inner ->
       Forall (fun line => ¬ tag `prefix_of` stripped line) junk ->
       stripped closing = tag ->
       load_lines (before ++ inner :: junk ++ closing :: after)
       = ReturnNone (Some (NoName (length before + length junk + 2)))).
Proof.
  split; [apply load_line_closes |].
  intros before scripts s_name inner junk closing after Hb Hne Hi Hj Hc.
  unfold load_lines. rewrite load_loop_app, Hb. cbn [load_loop].
  rewrite load_line_closes by done.
  rewrite load_loop_app, (load_loop_skip _ _ _ Hj). cbn [load_loop].
  rewrite load_line_closed. cbv zeta. rewrite Hc.
  change (_contains_prefix tag tag) with true. change (len tag <? 4) with true.
  cbv iota. do 3 f_equal. lia.
Qed.

(** [---B] after a command of [A] closes [A]; the bare [---] two lines
    later has no name. *)
Lemma tag_inside_script_closes_it_witness :
  load_line (<[py "A" := []]> ∅, py "A") 2 open_B = Continue (<[py "A" := []]> ∅, [])
  ∧ load_lines ([open_A] ++ open_B :: [move_10_20] ++ close :: [])
    = ReturnNone (Some (NoName (length [open_A] + length [move_10_20] + 2))).
Proof.
  destruct tag_inside_script_closes_it as [Hcloses Hfails].
  assert (py "A" ≠ []) as Hname by discriminate.
  assert (tag `prefix_of` stripped open_B) as Htag.
  { apply (bool_decide_unpack _). vm_compute. exact I. }
  assert (load_loop initial 1 [open_A] = Continue (<[py "A" := []]> ∅, py "A")) as Hb.
  { vm_compute. reflexivity. }
  assert (Forall (fun line => ¬ tag `prefix_of` stripped line) [move_10_20]) as Hj.
  { apply (bool_decide_unpack _). vm_compute. exact I. }
  assert (stripped close = tag) as Hc.
  { vm_compute. reflexivity. }
  split.
  - exact (Hcloses (<[py "A" := []]> ∅) (py "A") 2%nat open_B Hname Htag).
  - exact (Hfails [open_A] (<[py "A" := []]> ∅) (py "A") open_B [move_10_20] close []
                  Hb Hname Htag Hj Hc).
Defined.

Lemma load_line_passed_over st line_n line :
  passed_over line -> load_line st line_n line = Continue st.
Proof.
  intros Hp. destruct st as [scripts [|a s_name]].
  - rewrite load_line_closed. cbv zeta.
    destruct (_contains_prefix tag (stripped line)) eqn:E; [| done].
    apply contains_prefix_spec in E; [| done]. destruct E as [k Hk].
    unfold passed_over in Hp. rewrite Hk in Hp.
    destruct Hp as [Hp | [Hp | Hp]]; by vm_compute in Hp.
  - rewrite load_line_open by done. cbv zeta.
    assert ((len (stripped line) =? 0)
            || char_in (nth 0 (stripped line) Ascii.zero) (py "#%") = true) as ->; [| done].
    apply not_false_iff_true. intros Hf. apply ignorable_false in Hf.
    unfold passed_over in Hp. tauto.
Qed.

Lemma load_loop_passed_over st line_n (comments : list str) :
  Forall passed_over comments -> load_loop st line_n comments = Continue st.
Proof.
  revert line_n. induction comments as [|l comments IH]; intros line_n Hc; simpl; [done |].
  apply Forall_cons in Hc as [Hl Hc]. rewrite load_line_passed_over by done. by apply IH.
Qed.

(** Empty lines and lines that start with [#] or [%], once stripped, are
    passed over wherever they stand, inside a script or outside: putting
    them into a file changes nothing of what [load_scripts] returns, but
    the line number in the message of a tag without name. *)
Theorem passed_over_lines_change_nothing (before comments after : list str) :
  Forall passed_over comments ->
  without_line_n (load_lines (before ++ comments ++ after))
  = without_line_n (load_lines (before ++ after)).
Proof.
  intros Hc. unfold load_lines. rewrite !without_line_n_table.
  rewrite !(load_loop_app _ _ before).
  destruct (load_loop initial 1 before) as [st | d | e]; [| done | done].
  rewrite load_loop_app, (load_loop_passed_over _ _ _ Hc).
  by rewrite (load_loop_without_line_n _ after _ (1 + length before)).
Qed.

(** A comment and a blank line inside the script [A]. *)
Lemma passed_over_lines_change_nothing_witness :
  without_line_n (load_lines ([open_A; press_ctrl_c] ++ [comment_line; blank_line]
                              ++ [move_10_20; close]))
  = without_line_n (load_lines ([open_A; press_ctrl_c] ++ [move_10_20; close])).
Proof.
  assert (Forall passed_over [comment_line; blank_line]) as Hc.
  { unfold passed_over. apply (bool_decide_unpack _). vm_compute. exact I. }
  exact (passed_over_lines_change_nothing [open_A; press_ctrl_c] [comment_line; blank_line]
                                          [move_10_20; close] Hc).
Defined.

(** A file in which no line starts with [---] once stripped, an empty
    file among them, loads as the empty table, not as [None]. *)
Theorem text_without_tag_loads_empty (lines : list str) :
  Forall (fun line => ¬ tag `prefix_of` stripped line) lines ->
  load_lines lines = Continue ∅.
Proof.
  intros H. unfold load_lines, initial. by rewrite (load_loop_skip _ _ _ H).
Qed.

(** Two lines of text and no tag. *)
Lemma text_without_tag_loads_empty_witness :
  load_lines [free_text; move_10_20] = Continue ∅.
Proof.
  assert (Forall (fun line => ¬ tag `prefix_of` stripped line) [free_text; move_10_20]) as H.
  { apply (bool_decide_unpack _). vm_compute. exact I. }
  exact (text_without_tag_loads_empty [free_text; move_10_20] H).
Defined.

End ReaderLoop.

(** ** The registry and what its handlers do to the world *)

Section Registry.

Import ScriptExecutor.

Implicit Types (w : world) (script : list command) (name raw : str) (delay : Z)
  (evs : list event).

Opaque _win_key.




Lemma keys_down_after_app (down : gset Z) evs1 evs2 :
  keys_down_after down (evs1 ++ evs2) = keys_down_after (keys_down_after down evs1) evs2.
Proof. apply fold_left_app. Qed.

Lemma key_neutral_nil : key_neutral [].
Proof. intros down. done. Qed.

Lemma key_neutral_app evs1 evs2 :
  key_neutral evs1 -> key_neutral evs2 -> key_neutral (evs1 ++ evs2).
Proof.
  intros H1 H2 down. rewrite keys_down_after_app.
  etrans; [apply H2 | apply H1].
Qed.

Lemma key_neutral_sleep (ms : Z) : key_neutral [Sleep ms].
Proof. intros down. done. Qed.

Lemma key_neutral_stderr (msg : message) : key_neutral [Stderr msg].
Proof. intros down. done. Qed.

Lemma key_neutral_mouse (dx dy flags : Z) : key_neutral [SendInput (CMouseInput dx dy flags)].
Proof. intros down. done. Qed.

Lemma keys_down_after_holds (down : gset Z) (key_codes : list Z) :
  keys_down_after down (map hold_event key_codes)
  = list_to_set (map c_ushort key_codes) ∪ down.
Proof.
  unfold keys_down_after. revert down.
  induction key_codes as [|k ks IH]; intros down.
  - cbn [map fold_left list_to_set]. set_solver.
  - cbn [map fold_left]. rewrite IH. unfold hold_event at 1.
    cbn [key_step]. change (Z.land 0 KEY_EVENT_RELEASE =? 0) with true.
    cbn [list_to_set]. set_solver.
Qed.

Lemma keys_down_after_releases (down : gset Z) (key_codes : list Z) :
  keys_down_after down (map release_event key_codes)
  = down ∖ list_to_set (map c_ushort key_codes).
Proof.
  unfold keys_down_after. revert down.
  induction key_codes as [|k ks IH]; intros down.
  - cbn [map fold_left list_to_set]. set_solver.
  - cbn [map fold_left]. rewrite IH. unfold release_event at 1.
    cbn [key_step].
    change (Z.land (c_ulong KEY_EVENT_RELEASE) KEY_EVENT_RELEASE =? 0) with false.
    cbn [list_to_set]. set_solver.
Qed.

Lemma key_neutral_press (key_codes : list Z) :
  key_neutral (map hold_event key_codes ++ [Sleep timeout]
               ++ map release_event (rev key_codes)).
Proof.
  intros down. rewrite !keys_down_after_app, keys_down_after_holds.
  change (keys_down_after ?d [Sleep timeout]) with d.
  rewrite keys_down_after_releases.
  assert (list_to_set (map c_ushort (rev key_codes))
          =@{gset Z} list_to_set (map c_ushort key_codes)) as ->.
  { apply set_eq. intros x. rewrite !elem_of_list_to_set, !list_elem_of_In.
    rewrite map_rev. symmetry. apply in_rev. }
  set_solver.
Qed.

Lemma key_neutral_char (key_code : Z) : key_neutral (press_events key_code).
Proof. apply (key_neutral_press [key_code]). Qed.

(** What the handlers give back: the world with events added, no key
    left down, and no exception but the [ValueError] of [move]. *)
Lemma press_effect (sequence : str) w :
  ∃ (b : bool) evs, ExecutionAPI.press sequence w = (Ok (Some b), emit evs w) ∧ key_neutral evs.
Proof.
  unfold ExecutionAPI.press. rewrite keyboard_press_combo_spec.
  destruct (mapM _ _) as [codes|].
  - case_bool_decide.
    + eexists _, _. split; [done |]. apply key_neutral_press.
    + exists false, []. rewrite emit_nil. split; [done | apply key_neutral_nil].
  - exists false, []. rewrite emit_nil. split; [done | apply key_neutral_nil].
Qed.

Lemma write_loop_effect (sequence todo : str) w :
  ∃ (b : bool) evs,
    ExecutionAPI.write_loop sequence todo w = (Ok (Some b), emit evs w) ∧ key_neutral evs.
Proof.
  revert w. induction todo as [|c todo IH]; intros w.
  - exists true, []. rewrite emit_nil. split; [done | apply key_neutral_nil].
  - cbn [ExecutionAPI.write_loop]. rewrite keyboard_press_char.
    destruct (_get_hex_code [c]) as [k|].
    + destruct (IH (emit (press_events k) w)) as (b & evs & -> & Hn).
      exists b, (press_events k ++ evs). rewrite emit_emit. split; [done |].
      apply key_neutral_app; [apply key_neutral_char | done].
    + eexists _, _. split; [done |]. apply key_neutral_stderr.
Qed.

Lemma move_effect (x y : str) w :
  ∃ (r : result (option bool)) evs,
    ExecutionAPI.move x y w = (r, emit evs w) ∧ key_neutral evs
    ∧ ∀ e, r = Exn e -> e = ValueError.
Proof.
  unfold ExecutionAPI.move. destruct (_ || _).
  - eexists _, _. split; [done |]. split; [apply key_neutral_stderr | done].
  - destruct (int x) as [xi|].
    + destruct (int y) as [yi|].
      * unfold mouse_move. destruct (_ || _).
        -- exists (Ok (Some false)), []. rewrite emit_nil.
           split; [done |]. split; [apply key_neutral_nil | done].
        -- eexists _, _. split; [done |]. split; [apply key_neutral_mouse | done].
      * exists (Exn ValueError), []. rewrite emit_nil.
        split; [done |]. split; [apply key_neutral_nil | by intros e [= <-]].
    + exists (Exn ValueError), []. rewrite emit_nil.
      split; [done |]. split; [apply key_neutral_nil | by intros e [= <-]].
Qed.

Lemma hold_mouse_effect (key : str) w :
  ∃ (b : bool) evs, ExecutionAPI.hold_mouse key w = (Ok (Some b), emit evs w) ∧ key_neutral evs.
Proof.
  unfold ExecutionAPI.hold_mouse. destruct (ExecutionAPI.button key) as [btn|].
  - eexists _, _. split; [done |]. apply key_neutral_mouse.
  - eexists _, _. split; [done |]. apply key_neutral_stderr.
Qed.

Lemma release_mouse_effect (key : str) w :
  ∃ (b : bool) evs, ExecutionAPI.release_mouse key w = (Ok (Some b), emit evs w) ∧ key_neutral evs.
Proof.
  unfold ExecutionAPI.release_mouse. destruct (ExecutionAPI.button key) as [btn|].
  - eexists _, _. split; [done |]. apply key_neutral_mouse.
  - eexists _, _. split; [done |]. apply key_neutral_stderr.
Qed.

Lemma handler_effect name (arity : Z) (handle : handler) (parameters : list str) w :
  _commands !! name = Some (arity, handle) -> len parameters = arity ->
  ∃ (r : result (option bool)) evs,
    handle parameters w = (r, emit evs w) ∧ key_neutral evs
    ∧ ∀ e, r = Exn e -> e = ValueError ∧ name = py "move".
Proof.
  intros Hl Ha.
  apply commands_lookup in Hl
    as [(-> & -> & ->) | [(-> & -> & ->) | [(-> & -> & ->) | [(-> & -> & ->) | (-> & -> & ->)]]]].
  - apply length_one in Ha as [a ->]. cbn [call1].
    destruct (press_effect a w) as (b & evs & -> & Hn). by eexists _, _.
  - apply length_one in Ha as [a ->]. cbn [call1]. unfold ExecutionAPI.write.
    destruct (write_loop_effect a a w) as (b & evs & -> & Hn). by eexists _, _.
  - apply length_two in Ha as (a & b & ->). cbn [call2].
    destruct (move_effect a b w) as (r & evs & -> & Hn & He).
    eexists _, _. split; [done |]. split; [done |]. intros e Hr. split; [by apply He | done].
  - apply length_one in Ha as [a ->]. cbn [call1].
    destruct (hold_mouse_effect a w) as (b & evs & -> & Hn). by eexists _, _.
  - apply length_one in Ha as [a ->]. cbn [call1].
    destruct (release_mouse_effect a w) as (b & evs & -> & Hn). by eexists _, _.
Qed.

Lemma sleep_refuses delay (e : pyexn) :
  sleep delay = Some e -> e = OverflowError ∨ (e = ValueError ∧ delay < 0).
Proof.
  unfold sleep. destruct (_ || _); [intros [= <-]; by left |].
  destruct (delay <? 0) eqn:E; [| done]. intros [= <-]. right.
  split; [done | by apply Z.ltb_lt].
Qed.

Lemma sleep_takes delay : sleep delay = None -> 0 ≤ delay ≤ sleep_limit.
Proof.
  unfold sleep. destruct (_ || _) eqn:E; [done |].
  destruct (delay <? 0) eqn:E0; [done |]. intros _.
  apply orb_false_iff in E as [_ E]. apply Z.ltb_ge in E, E0. lia.
Qed.

Lemma internal_execute_effect script w :
  ∃ (r : result bool) evs,
    _internal_execute script w = (r, emit evs w) ∧ key_neutral evs
    ∧ ∀ e, r = Exn e ->
           (e = OverflowError ∨ e = ValueError)
           ∧ (e = ValueError ->
              Exists (fun c => c.1.1 < 0 ∨ c.1.2 = py "move") script).
Proof.
  revert w. induction script as [|[[delay name] raw] script IH]; intros w.
  - exists (Ok true), []. rewrite emit_nil. split; [done |]. split; [apply key_neutral_nil | done].
  - destruct (sleep delay) as [e0|] eqn:Hs.
    + cbn [_internal_execute]. rewrite Hs.
      exists (Exn e0), []. rewrite emit_nil. split; [done |].
      split; [apply key_neutral_nil |]. intros e [= <-].
      apply sleep_refuses in Hs as [-> | [-> Hneg]].
      * split; [by left | done].
      * split; [by right |]. intros _. left. by left.
    + apply sleep_takes in Hs. rewrite internal_execute_cons by done.
      destruct (_commands !! name) as [[arity handle]|] eqn:Hl.
      * case_bool_decide as Ha.
        -- destruct (handler_effect _ _ _ _ (emit [Sleep delay] w) Hl Ha)
             as (r & evs & -> & Hn & He).
           destruct r as [x | e].
           ++ destruct (IH (emit evs (emit [Sleep delay] w))) as (r' & evs' & -> & Hn' & He').
              exists r', ([Sleep delay] ++ evs ++ evs'). rewrite !emit_emit, <- ?app_assoc.
              split; [done |]. split.
              ** apply key_neutral_app; [apply key_neutral_sleep |].
                 by apply key_neutral_app.
              ** intros e Hr. destruct (He' e Hr) as [Hor Hex]. split; [done |].
                 intros Hv. right. by apply Hex.
           ++ exists (Exn e), ([Sleep delay] ++ evs). rewrite emit_emit. split; [done |].
              split; [apply key_neutral_app; [apply key_neutral_sleep | done] |].
              intros e' [= <-]. destruct (He e eq_refl) as [-> ->].
              split; [by right |]. intros _. left. by right.
        -- eexists _, _. split; [done |]. split; [| done].
           apply (key_neutral_app [Sleep delay] [Stderr _]);
             [apply key_neutral_sleep | apply key_neutral_stderr].
      * eexists _, _. split; [done |]. split; [| done].
        apply (key_neutral_app [Sleep delay] [Stderr _]);
          [apply key_neutral_sleep | apply key_neutral_stderr].
Qed.

Lemma execute_effect (self : executor) (script_name : str) w :
  ∃ (r : result bool) evs,
    execute self script_name w = (r, emit evs w) ∧ key_neutral evs.
Proof.
  unfold execute. destruct (scripts self) as [t|].
  - case_bool_decide.
    + eexists _, _. split; [done |]. apply key_neutral_stderr.
    + destruct (t !! script_name) as [script|].
      * destruct (internal_execute_effect script w) as (r & evs & -> & Hn & He).
        eexists _, _. by split.
      * eexists _, _. split; [done |]. apply key_neutral_stderr.
  - eexists _, _. split; [done |]. apply key_neutral_stderr.
Qed.






(** The call of the handler never raises [TypeError]: the test on the
    number of parameters comes first and the registry gives each handler
    its number. Nor does a [KeyError] come from the registry. When the
    run raises [ValueError], the script has a negative delay or a
    [move]. *)
Theorem executor_never_raises_type_error script w (e : pyexn) w' :
  _internal_execute script w = (Exn e, w') ->
  e ≠ TypeError ∧ e ≠ KeyError
  ∧ (e = ValueError -> Exists (fun c => c.1.1 < 0 ∨ c.1.2 = py "move") script).
Proof.
  intros H. destruct (internal_execute_effect script w) as (r & evs & Hr & _ & He).
  rewrite Hr in H. injection H as -> _. destruct (He e eq_refl) as [Hor Hex].
  split; [| split; [| done]]; intros ->; by destruct Hor.
Qed.

(** A [move] to the abscissa written with the superscript two. *)
Lemma executor_never_raises_type_error_witness :
  ValueError ≠ TypeError ∧ ValueError ≠ KeyError
  ∧ (ValueError = ValueError ->
     Exists (fun c : command => c.1.1 < 0 ∨ c.1.2 = py "move")
            [(3, py "move", chr 178 :: py ",5")]).
Proof.
  assert (_internal_execute [(3, py "move", chr 178 :: py ",5")] desktop
          = (Exn ValueError, emit [Sleep 3] desktop)) as H.
  { vm_compute. reflexivity. }
  exact (executor_never_raises_type_error _ desktop ValueError _ H).
Defined.

(** [execute] only adds events: what happened before stays in the trace,
    in its order (there is no rollback), and the stored screen size and
    multipliers are not touched. *)
Theorem execute_only_adds_events (self : executor) (script_name : str) w :
  trace w `prefix_of` trace (snd (execute self script_name w))
  ∧ get_primary_resolution (snd (execute self script_name w)) = get_primary_resolution w
  ∧ _SCREEN_X_MULTIPLIER (snd (execute self script_name w)) = _SCREEN_X_MULTIPLIER w
  ∧ _SCREEN_Y_MULTIPLIER (snd (execute self script_name w)) = _SCREEN_Y_MULTIPLIER w.
Proof.
  destruct (execute_effect self script_name w) as (r & evs & -> & _).
  cbn [snd]. split; [| done]. unfold emit. cbn [trace]. by apply prefix_app_r.
Qed.

Lemma keys_down_emit evs w : keys_down (emit evs w) = keys_down_after (keys_down w) evs.
Proof. unfold keys_down, emit. cbn [trace]. apply keys_down_after_app. Qed.

(** Neither a script nor [press] nor [write] leaves a key down that was
    not down before: every key that is held is released, also when the
    run stops early. *)
Theorem execute_leaves_no_key_down :
  (∀ (self : executor) (script_name : str) w,
     keys_down (snd (execute self script_name w)) ⊆ keys_down w)
  ∧ (∀ (sequence : str) w, keys_down (snd (ExecutionAPI.press sequence w)) ⊆ keys_down w)
  ∧ (∀ (sequence : str) w, keys_down (snd (ExecutionAPI.write sequence w)) ⊆ keys_down w).
Proof.
  split; [| split].
  - intros self script_name w.
    destruct (execute_effect self script_name w) as (r & evs & -> & Hn).
    cbn [snd]. rewrite keys_down_emit. apply Hn.
  - intros sequence w. destruct (press_effect sequence w) as (b & evs & -> & Hn).
    cbn [snd]. rewrite keys_down_emit. apply Hn.
  - intros sequence w. unfold ExecutionAPI.write.
    destruct (write_loop_effect sequence sequence w) as (b & evs & -> & Hn).
    cbn [snd]. rewrite keys_down_emit. apply Hn.
Qed.

End Registry.

(** ** The key table and the keyboard *)

Section Keys.

Implicit Types (w : world) (key : str) (keys : list str) (key_dict : gmap str Z).

Lemma add_sequence_keys_other key_dict keys (start : Z) key :
  key ∉ keys -> _add_sequence_keys key_dict keys start !! key = key_dict !! key.
Proof.
  revert key_dict start. induction keys as [|k keys IH]; intros key_dict start Hk; [done |].
  apply not_elem_of_cons in Hk as [Hne Hk]. cbn [_add_sequence_keys].
  rewrite IH by done. by rewrite lookup_insert_ne.
Qed.

(** [_add_sequence_keys] on keys that are all different gives the key at
    place [i] the code [start + i], whatever the dictionary held for it,
    and leaves the entries of the other keys as they were. *)
Theorem add_sequence_keys_lookup key_dict keys (start : Z) :
  NoDup keys ->
  (∀ (i : nat) key, keys !! i = Some key ->
     _add_sequence_keys key_dict keys start !! key = Some (start + Z.of_nat i))
  ∧ (∀ key, key ∉ keys ->
       _add_sequence_keys key_dict keys start !! key = key_dict !! key).
Proof.
  intros Hnd. split; [| intros key; apply add_sequence_keys_other].
  revert key_dict start. induction Hnd as [|k keys Hk Hnd IH]; intros key_dict start i key Hi.
  - done.
  - cbn [_add_sequence_keys]. destruct i as [|i].
    + injection Hi as <-. rewrite add_sequence_keys_other by done.
      rewrite lookup_insert_eq. f_equal. lia.
    + cbn [lookup] in Hi. rewrite (IH _ _ i key Hi). f_equal. lia.
Qed.

(** The function keys F1, F2 and F3 from the code 0x70 on. *)
Lemma add_sequence_keys_lookup_witness :
  _add_sequence_keys ∅ [py "F1"; py "F2"; py "F3"] 112 !! py "F2" = Some (112 + Z.of_nat 1)
  ∧ _add_sequence_keys ∅ [py "F1"; py "F2"; py "F3"] 112 !! py "F9"
    = (∅ : gmap str Z) !! py "F9".
Proof.
  assert (NoDup [py "F1"; py "F2"; py "F3"]) as H.
  { apply (bool_decide_unpack _). vm_compute. exact I. }
  destruct (add_sequence_keys_lookup ∅ [py "F1"; py "F2"; py "F3"] 112 H) as [Hin Hout].
  assert ([py "F1"; py "F2"; py "F3"] !! 1%nat = Some (py "F2")) as H1 by reflexivity.
  assert (py "F9" ∉ [py "F1"; py "F2"; py "F3"]) as H2.
  { apply (bool_decide_unpack _). vm_compute. exact I. }
  exact (conj (Hin 1%nat (py "F2") H1) (Hout (py "F9") H2)).
Defined.

(** The one-character keys of the table are the letters and the digits. *)
Lemma single_character_keys (c : ascii) :
  bool_decide (is_Some (_get_hex_code [c])) = alnum c.
Proof.
  destruct c as [[] [] [] [] [] [] [] []]; vm_compute; reflexivity.
Qed.

(** A capital letter has the key code of its small letter, and no other
    character gets a key by being lowered. *)
Lemma small_letter_key (c : ascii) : _get_hex_code [small_letter c] = _get_hex_code [c].
Proof.
  destruct c as [[] [] [] [] [] [] [] []]; vm_compute; reflexivity.
Qed.

Opaque _win_key.

(** [write] answers true exactly on the sequences made of the letters A
    to Z, a to z and the digits: a blank, a comma or a dot stops it. *)
Theorem write_accepts_letters_and_digits (sequence : str) w :
  fst (ExecutionAPI.write sequence w) = Ok (Some true) <-> forallb alnum sequence = true.
Proof.
  unfold ExecutionAPI.write. rewrite write_loop_answer.
  rewrite forallb_forall. split.
  - intros [= H]. apply bool_decide_eq_true_1 in H. rewrite Forall_forall in H.
    intros c Hc. apply list_elem_of_In in Hc. rewrite <- single_character_keys.
    apply bool_decide_eq_true_2. by apply H.
  - intros H. do 2 f_equal. apply bool_decide_eq_true_2. apply Forall_forall.
    intros c Hc. apply list_elem_of_In in Hc. specialize (H c Hc).
    rewrite <- single_character_keys in H. by apply bool_decide_eq_true_1 in H.
Qed.

Lemma write_loop_small_letters (sequence1 sequence2 todo : str) w1 w2 :
  inputs w1 = inputs w2 ->
  fst (ExecutionAPI.write_loop sequence1 (small_letters todo) w1)
  = fst (ExecutionAPI.write_loop sequence2 todo w2)
  ∧ inputs (snd (ExecutionAPI.write_loop sequence1 (small_letters todo) w1))
    = inputs (snd (ExecutionAPI.write_loop sequence2 todo w2)).
Proof.
  revert w1 w2. induction todo as [|c todo IH]; intros w1 w2 Hw; [done |].
  cbn [small_letters map ExecutionAPI.write_loop].
  rewrite !keyboard_press_char, small_letter_key.
  destruct (_get_hex_code [c]) as [k|].
  - apply IH. by rewrite !inputs_emit, Hw.
  - cbn [fst snd]. split; [done |]. rewrite !inputs_emit. cbn [List.filter is_input].
    by rewrite !app_nil_r.
Qed.

(** [write] does not tell the capital letters A to Z from the small
    ones: the table of the keys gives a capital letter the code of its
    small letter, so [write] answers the same and sends the same input on
    a sequence and on the sequence with every capital letter A to Z made
    small. A capital letter cannot be written. *)
Theorem write_ignores_case (sequence : str) w :
  fst (ExecutionAPI.write (small_letters sequence) w) = fst (ExecutionAPI.write sequence w)
  ∧ inputs (snd (ExecutionAPI.write (small_letters sequence) w))
    = inputs (snd (ExecutionAPI.write sequence w)).
Proof. unfold ExecutionAPI.write. by apply write_loop_small_letters. Qed.

Lemma remove_char_absent (c : ascii) (s : str) : c ∉ s -> remove_char c s = s.
Proof.
  unfold remove_char. induction s as [|a s IH]; intros Hc; [done |].
  apply not_elem_of_cons in Hc as [Hne Hc].
  rewrite filter_cons_True by congruence. by rewrite IH.
Qed.

Lemma split_absent (sep : ascii) (s : str) : sep ∉ s -> split sep s = [s].
Proof.
  induction s as [|a s IH]; intros Hc; [done |].
  apply not_elem_of_cons in Hc as [Hne Hc]. cbn [split].
  assert (Ascii.eqb a sep = false) as -> by (apply eqb_char_false; congruence).
  by rewrite IH.
Qed.

(** A combination of one key is a key press: on an identifier without
    [+] and without blank, [keyboard_press_combo] answers and sends what
    [keyboard_press] does. *)
Theorem press_combo_of_one_key key w :
  plus_sign ∉ key -> space ∉ key ->
  keyboard_press_combo key w = keyboard_press key w.
Proof.
  intros Hp Hs. rewrite keyboard_press_combo_spec.
  rewrite remove_char_absent, split_absent by done.
  unfold keyboard_press. cbn [mapM]. destruct (_get_hex_code key) as [k|]; [| done].
  cbn [mbind option_bind mret option_ret].
  rewrite bool_decide_eq_true_2 by (apply NoDup_singleton).
  unfold _keyboard_hold, _keyboard_release, _sleep, _send_input.
  by rewrite !emit_emit.
Qed.

(** The key [enter]. *)
Lemma press_combo_of_one_key_witness :
  keyboard_press_combo (py "enter") desktop = keyboard_press (py "enter") desktop.
Proof.
  assert (plus_sign ∉ py "enter") as Hp.
  { apply (bool_decide_unpack _). vm_compute. exact I. }
  assert (space ∉ py "enter") as Hs.
  { apply (bool_decide_unpack _). vm_compute. exact I. }
  exact (press_combo_of_one_key (py "enter") desktop Hp Hs).
Defined.

End Keys.

(** ** The mouse *)

Section Mouse.

Implicit Types (w : world) (key x y : str).

Lemma lower_char_twice (c : ascii) : lower_char (lower_char c) = lower_char c.
Proof.
  destruct c as [[] [] [] [] [] [] [] []]; vm_compute; reflexivity.
Qed.

Lemma lower_twice key : lower (lower key) = lower key.
Proof.
  unfold lower. rewrite map_map. apply map_ext. intros c. apply lower_char_twice.
Qed.

Lemma button_lower key : ExecutionAPI.button (lower key) = ExecutionAPI.button key.
Proof. unfold ExecutionAPI.button. by rewrite lower_twice. Qed.

Lemma button_known key :
  lower key ∈ button_names <-> is_Some (ExecutionAPI.button key).
Proof.
  unfold ExecutionAPI.button, button_names.
  repeat case_bool_decide; split; intros Hx; try (by eexists); try set_solver.
Qed.

(** [hold_mouse] and [release_mouse] take the names left, right and
    middle in any letter case. On such a name each sends one mouse input
    and answers true, the flag of the release being twice the flag of the
    hold of the same button; on any other name each answers false after
    one line on the error stream and sends nothing. *)
Theorem mouse_buttons_by_name key w :
  (lower key ∈ button_names ->
   ∃ flags, flags ∈ [2; 8; 32]
     ∧ ExecutionAPI.hold_mouse key w
       = (Ok (Some true), emit [SendInput (CMouseInput 0 0 flags)] w)
     ∧ ExecutionAPI.release_mouse key w
       = (Ok (Some true), emit [SendInput (CMouseInput 0 0 (2 * flags))] w))
  ∧ (lower key ∉ button_names ->
     ExecutionAPI.hold_mouse key w = (Ok (Some false), emit [Stderr (InvalidHoldButton key)] w)
     ∧ ExecutionAPI.release_mouse key w
       = (Ok (Some false), emit [Stderr (InvalidReleaseButton key)] w))
  ∧ (fst (ExecutionAPI.hold_mouse (lower key) w) = fst (ExecutionAPI.hold_mouse key w)
     ∧ inputs (snd (ExecutionAPI.hold_mouse (lower key) w))
       = inputs (snd (ExecutionAPI.hold_mouse key w))).
Proof.
  split; [| split].
  - intros H. apply button_known in H as [btn Hb].
    unfold ExecutionAPI.hold_mouse, ExecutionAPI.release_mouse. rewrite Hb.
    destruct btn; [exists 8 | exists 2 | exists 32];
      (split; [set_solver | split; reflexivity]).
  - intros H. unfold ExecutionAPI.hold_mouse, ExecutionAPI.release_mouse.
    destruct (ExecutionAPI.button key) as [btn|] eqn:Hb; [| done].
    exfalso. apply H. apply button_known. by eexists.
  - unfold ExecutionAPI.hold_mouse. rewrite button_lower.
    destruct (ExecutionAPI.button key) as [btn|]; [done |].
    cbn [fst snd]. split; [done |]. by rewrite !inputs_emit.
Qed.

(** The name in capital letters and a name that is no button. *)
Lemma mouse_buttons_by_name_witness :
  (∃ flags, flags ∈ [2; 8; 32]
     ∧ ExecutionAPI.hold_mouse (py "LEFT") desktop
       = (Ok (Some true), emit [SendInput (CMouseInput 0 0 flags)] desktop)
     ∧ ExecutionAPI.release_mouse (py "LEFT") desktop
       = (Ok (Some true), emit [SendInput (CMouseInput 0 0 (2 * flags))] desktop))
  ∧ (ExecutionAPI.hold_mouse (py "side") desktop
     = (Ok (Some false), emit [Stderr (InvalidHoldButton (py "side"))] desktop)
     ∧ ExecutionAPI.release_mouse (py "side") desktop
       = (Ok (Some false), emit [Stderr (InvalidReleaseButton (py "side"))] desktop)).
Proof.
  destruct (mouse_buttons_by_name (py "LEFT") desktop) as (Hgood & _ & _).
  destruct (mouse_buttons_by_name (py "side") desktop) as (_ & Hbad & _).
  assert (lower (py "LEFT") ∈ button_names) as H1.
  { apply (bool_decide_unpack _). vm_compute. exact I. }
  assert (lower (py "side") ∉ button_names) as H2.
  { apply (bool_decide_unpack _). vm_compute. exact I. }
  exact (conj (Hgood H1) (Hbad H2)).
Defined.

Lemma c_long_small (v : Z) : - 2 ^ 31 ≤ v < 2 ^ 31 -> c_long v = v.
Proof. intros H. unfold c_long. rewrite Z.mod_small; lia. Qed.

(** After [refresh_monitor_size] on a screen of positive size,
    [get_primary_resolution] gives that size, and [mouse_move] accepts
    exactly the points from (0, 0) up to (width, height), both bounds
    included, in absolute as in relative mode (so a relative move to the
    left or upwards is refused). For an accepted point it sends one mouse
    input whose coordinates are the point times the stored multipliers;
    they lie from 0 to 65535 and do not wrap. *)
Theorem mouse_move_within_screen (width height : Z) (w0 : world) (x y : Z) (relative : bool) :
  0 < width -> 0 < height ->
  get_primary_resolution (refresh_monitor_size width height w0) = (width, height)
  ∧ ((0 ≤ x ≤ width) ∧ (0 ≤ y ≤ height) ->
     mouse_move x y relative (refresh_monitor_size width height w0)
     = (true,
        emit [SendInput (CMouseInput (x * (65535 / width)) (y * (65535 / height))
                                     (if relative then 1 else 32769))]
             (refresh_monitor_size width height w0))
     ∧ (0 ≤ x * (65535 / width) ≤ 65535) ∧ (0 ≤ y * (65535 / height) ≤ 65535))
  ∧ (¬ ((0 ≤ x ≤ width) ∧ (0 ≤ y ≤ height)) ->
     mouse_move x y relative (refresh_monitor_size width height w0)
     = (false, refresh_monitor_size width height w0)).
Proof.
  intros Hw Hh. split; [done |].
  unfold mouse_move, refresh_monitor_size, _send_input.
  cbn [_SCREEN_WIDTH_PX _SCREEN_HEIGHT_PX _SCREEN_X_MULTIPLIER _SCREEN_Y_MULTIPLIER].
  change MOUSE_EVENT_COORDINATES with 65535.
  split.
  - intros [Hx Hy].
    assert ((x <? 0) || (x >? width) || (y <? 0) || (y >? height) = false) as ->.
    { rewrite !Z.gtb_ltb, !orb_false_iff, !Z.ltb_ge. lia. }
    pose proof (Z.mul_div_le 65535 width Hw) as Hmw.
    pose proof (Z.mul_div_le 65535 height Hh) as Hmh.
    assert (0 ≤ 65535 / width) as Hqw by (apply Z.div_pos; lia).
    assert (0 ≤ 65535 / height) as Hqh by (apply Z.div_pos; lia).
    assert (0 ≤ x * (65535 / width) ≤ 65535) as Hdx by nia.
    assert (0 ≤ y * (65535 / height) ≤ 65535) as Hdy by nia.
    split; [| done].
    rewrite !c_long_small by lia. by destruct relative.
  - intros Hno.
    assert ((x <? 0) || (x >? width) || (y <? 0) || (y >? height) = true) as ->; [| done].
    rewrite !orb_true_iff, !Z.ltb_lt, !Z.gtb_ltb, !Z.ltb_lt. lia.
Qed.

(** The far corner of a screen of 1920 by 1080, and a point to its
    right. *)
Lemma mouse_move_within_screen_witness :
  (mouse_move 1920 1080 false (refresh_monitor_size 1920 1080 (World 0 0 0 0 []))
   = (true,
      emit [SendInput (CMouseInput (1920 * (65535 / 1920)) (1080 * (65535 / 1080))
                                   (if false then 1 else 32769))]
           (refresh_monitor_size 1920 1080 (World 0 0 0 0 [])))
   ∧ (0 ≤ 1920 * (65535 / 1920) ≤ 65535) ∧ (0 ≤ 1080 * (65535 / 1080) ≤ 65535))
  ∧ mouse_move 1921 5 true (refresh_monitor_size 1920 1080 (World 0 0 0 0 []))
    = (false, refresh_monitor_size 1920 1080 (World 0 0 0 0 [])).
Proof.
  assert (0 < 1920) as Hw by lia. assert (0 < 1080) as Hh by lia.
  destruct (mouse_move_within_screen 1920 1080 (World 0 0 0 0 []) 1920 1080 false Hw Hh)
    as (_ & Hin & _).
  destruct (mouse_move_within_screen 1920 1080 (World 0 0 0 0 []) 1921 5 true Hw Hh)
    as (_ & _ & Hout).
  assert ((0 ≤ 1920 ≤ 1920) ∧ (0 ≤ 1080 ≤ 1080)) as H1 by lia.
  assert (¬ ((0 ≤ 1921 ≤ 1920) ∧ (0 ≤ 5 ≤ 1080))) as H2 by lia.
  exact (conj (Hin H1) (Hout H2)).
Defined.

End Mouse.

(** ** From the file to the run *)

Section FileToRun.

Import ScriptExecutor.

Implicit Types (w : world) (script : list command) (file : option str).

Opaque _win_key.

(** An executor is built whenever [load_scripts] returns, also when it
    returns [None]; it then runs exactly the script the table holds for
    the name, and answers false after one line on the error stream when
    there is no table or no such script. When [load_scripts] raises, no
    executor is built, and what is raised is [ValueError]. *)
Theorem executor_runs_what_was_loaded file :
  match load_scripts file with
  | Continue t =>
      ∃ self, new file = Ok self
        ∧ ∀ (script_name : str) w,
            execute self script_name w
            = match t !! script_name with
              | Some script => _internal_execute script w
              | None => (Ok false, emit [Stderr (NoScriptLoaded script_name)] w)
              end
  | ReturnNone _ =>
      ∃ self, new file = Ok self
        ∧ ∀ (script_name : str) w,
            execute self script_name w
            = (Ok false, emit [Stderr (NoScriptLoaded script_name)] w)
  | Raise e => new file = Exn e ∧ e = ValueError
  end.
Proof.
  unfold new. destruct (load_scripts file) as [t | d | e] eqn:E.
  - eexists. split; [done |]. intros script_name w. unfold execute. cbn [scripts].
    case_bool_decide as Ht; [| done]. subst t. by rewrite lookup_empty.
  - eexists. split; [done |]. done.
  - split; [done |]. destruct file as [text|]; [| done].
    by apply load_lines_raises in E as [-> _].
Qed.

(** When the run of a script of a table that [load_scripts] returned
    raises [ValueError], the script has a [move]: the delays of a loaded
    script are not negative, so the sleep does not raise it. *)
Theorem loaded_script_value_error_in_move (lines : list str) (t : table)
    (script_name : str) script w w' :
  load_lines lines = Continue t -> t !! script_name = Some script ->
  _internal_execute script w = (Exn ValueError, w') ->
  Exists (fun c => c.1.2 = py "move") script.
Proof.
  intros Hl Hs Hr.
  destruct (load_lines_table_ok _ _ Hl _ _ Hs) as [_ Hok].
  destruct (internal_execute_effect script w) as (r & evs & Hr' & _ & He).
  rewrite Hr' in Hr. injection Hr as -> _.
  destruct (He ValueError eq_refl) as [_ Hex]. specialize (Hex eq_refl).
  apply Exists_exists in Hex as (c & Hc & Hor). apply Exists_exists. exists c.
  split; [done |]. destruct Hor as [Hneg | Hm]; [| done].
  rewrite Forall_forall in Hok. destruct (Hok c Hc) as [H0 _]. lia.
Qed.

(** The script [A] of a file whose one command is a [move] to an
    abscissa written with the superscript two. *)
Lemma loaded_script_value_error_in_move_witness :
  Exists (fun c : command => c.1.2 = py "move") [(3, py "move", chr 178 :: py ",5")].
Proof.
  assert (load_lines [open_A; line_of (py "3,move," ++ quoted (chr 178 :: py ",5"))]
          = Continue (<[py "A" := [(3, py "move", chr 178 :: py ",5")]]> ∅)) as Hl.
  { vm_compute. reflexivity. }
  assert ((<[py "A" := [(3, py "move", chr 178 :: py ",5")]]> ∅ : table) !! py "A"
          = Some [(3, py "move", chr 178 :: py ",5")]) as Hs.
  { vm_compute. reflexivity. }
  assert (_internal_execute [(3, py "move", chr 178 :: py ",5")] desktop
          = (Exn ValueError, emit [Sleep 3] desktop)) as Hr.
  { vm_compute. reflexivity. }
  exact (loaded_script_value_error_in_move _ _ (py "A") _ desktop _ Hl Hs Hr).
Defined.

End FileToRun.
